(** * Linalg structured operations: indexing maps and iterator types

    A shallow embedding of the C++ bodies carried by
    [LinalgStructuredOps.td] (CopyOp, FillOp, PoolingBase_Op, ConvOp,
    SingleInputPoolingBase_Op, GenericOpBase) together with the properties
    the specification states about them.

    Conventions.
    - A C++ [unsigned] is a [Z] in the range [0, 2^32); every conversion and
      every subtraction or increment is written with [to_unsigned].
    - An [assert] that fails, and an array read past its end, end the call:
      the fallible members return a [Result Failure _].
    - Structures of MLIR that the file only uses (AffineExpr, AffineMap,
      ShapedType, the interface counters) are modelled next to their first
      use, each with a note saying where the model comes from. *)

From Stdlib Require Import ZArith List Bool Lia.
From Stdlib Require String.
Import ListNotations.
Open Scope Z_scope.
Import String.StringSyntax.
Delimit Scope string_scope with string.

Set Implicit Arguments.

(* ================================================================== *)
(** ** Results of fallible calls *)

Inductive Result (E A : Type) : Type :=
| Ok (a : A)
| Err (e : E).

Arguments Ok {E A} a.
Arguments Err {E A} e.

Definition bind {E A B} (c : Result E A) (k : A -> Result E B) : Result E B :=
  match c with
  | Ok a => k a
  | Err e => Err e
  end.

Notation "x <- c ;; k" := (bind c (fun x => k))
  (at level 61, c at next level, right associativity).

(** The [assert]s of the source, one name per site. *)
Inductive Assertion : Type :=
| ConvRankLimit          (* ConvOp::iterator_types: nPar > #b + #q *)
| ConvWindowDimension    (* ConvOp::indexing_maps: nWin > 0 *)
| PoolingWindowDimension (* pooling indexing_maps: nWin > 0 *)
| WindowLoopIndex.       (* getStride & co.: i < getNumWindowLoops() *)

Inductive Failure : Type :=
| AssertionFailed (a : Assertion)
| OutOfBounds.

(** The error taxonomy of the specification (section 7). *)
Inductive Error : Type :=
| ShapeMismatch
| RankMismatch
| InvalidPermutation
| OperandMapCountMismatch
| IteratorRankMismatch
| OperandRankMismatch
| NoWindowDimension
| NoOutput
| UnverifiedOperation.

(* ================================================================== *)
(** ** Machine integers *)

Definition UNSIGNED_MAX : Z := 2 ^ 32.

(** Conversion to (and arithmetic in) the 32-bit [unsigned] type. *)
Definition to_unsigned (z : Z) : Z := z mod UNSIGNED_MAX.

(* ================================================================== *)
(** ** Affine expressions and maps *)

(** The expression trees of the data model: dimension reference, integer
    constant, sum, product. *)
Inductive AffineExpr : Type :=
| Dim (position : Z)
| Const (c : Z)
| Add (a b : AffineExpr)
| Mul (a b : AffineExpr).

(** Value of an expression at an iteration-space point. *)
Fixpoint eval (point : Z -> Z) (e : AffineExpr) : Z :=
  match e with
  | Dim p => point p
  | Const c => c
  | Add a b => eval point a + eval point b
  | Mul a b => eval point a * eval point b
  end.

(** [AffineMap::get(dimCount, symbolCount, results, context)]. *)
Record AffineMap : Type := AffineMap_get {
  numDims : Z;
  numSymbols : Z;
  results : list AffineExpr
}.

(** [n] consecutive dimension references, the first one at [start]. *)
Fixpoint dimExprs (n : nat) (start : Z) : list AffineExpr :=
  match n with
  | O => []
  | S k => Dim start :: dimExprs k (start + 1)
  end.

(** Modelled from the spec: [makeAffineDimExprs(num, idx, context)] is
    declared outside LinalgStructuredOps.td.  It allocates the next [num]
    iteration-space dimensions in order and advances the running index
    [idx] (passed by reference) past them; the pair holds the expressions
    and the new value of [idx]. *)
Definition makeAffineDimExprs (num : Z) (idx : Z) : list AffineExpr * Z :=
  (dimExprs (Z.to_nat num) idx, to_unsigned (idx + num)).

(** [concat(a, b)] of two expression vectors. *)
Definition concat (a b : list AffineExpr) : list AffineExpr := a ++ b.

(** Modelled from the spec: [identity(rank)] returns the rank-dimension
    identity map (section 4.1); the AffineMap library is outside
    LinalgStructuredOps.td. *)
Definition identity (rank : Z) : AffineMap :=
  AffineMap_get rank 0 (dimExprs (Z.to_nat rank) 0).

Fixpoint nodupb (l : list Z) : bool :=
  match l with
  | [] => true
  | x :: r => negb (existsb (Z.eqb x) r) && nodupb r
  end.

(** [perm] is a bijection on [0, rank) with [rank = length perm]. *)
Definition is_bijection (perm : list Z) : bool :=
  forallb (fun p => (0 <=? p) && (p <? Z.of_nat (length perm))) perm
  && nodupb perm.

(** Modelled from the spec: [permutation(perm)] builds the map whose results
    are the dimension references reordered by [perm], and fails with
    [InvalidPermutation] when [perm] is not a bijection on [0, rank)
    (section 4.1). *)
Definition permutation (perm : list Z) : Result Error AffineMap :=
  if is_bijection perm
  then Ok (AffineMap_get (Z.of_nat (length perm)) 0 (map Dim perm))
  else Err InvalidPermutation.

(** Substitution of the expressions [rs] for the dimension references. *)
Fixpoint substDims (rs : list AffineExpr) (e : AffineExpr) : AffineExpr :=
  match e with
  | Dim p => nth (Z.to_nat p) rs (Dim p)
  | Const c => Const c
  | Add a b => Add (substDims rs a) (substDims rs b)
  | Mul a b => Mul (substDims rs a) (substDims rs b)
  end.

(** Modelled from the spec: [compose(outer, inner)] substitutes inner's
    results for outer's dimension references and fails with [RankMismatch]
    if [outer.domain_rank != inner.result_count] (section 4.1). *)
Definition compose (outer inner : AffineMap) : Result Error AffineMap :=
  if numDims outer =? Z.of_nat (length (results inner))
  then Ok (AffineMap_get (numDims inner) (numSymbols inner)
             (map (substDims (results inner)) (results outer)))
  else Err RankMismatch.

(** Modelled from the spec: [extractOrIdentityMap(maybeMap, rank, context)]
    is declared outside LinalgStructuredOps.td; per the Copy and Fill rows
    of the variant table each side's map is the supplied permutation when
    there is one and the identity of the operand's rank otherwise. *)
Definition extractOrIdentityMap (maybeMap : option AffineMap) (rank : Z)
  : AffineMap :=
  match maybeMap with
  | Some m => m
  | None => identity rank
  end.

(* ================================================================== *)
(** ** Shapes and iterator kinds *)

(** Modelled from the spec: the Shape Descriptor of section 3, a sequence of
    extents, static or dynamic; its rank is the number of extents. *)
Record Extent : Type := { is_dynamic : bool; size : Z }.

Record ShapedType : Type := { extents : list Extent }.

(** [ShapedType::getRank()], an [int64_t]. *)
Definition getRank (t : ShapedType) : Z := Z.of_nat (length (extents t)).

Inductive IteratorKind : Type := parallel | reduction | window.

Definition getParallelIteratorTypeName : IteratorKind := parallel.
Definition getReductionIteratorTypeName : IteratorKind := reduction.
Definition getWindowIteratorTypeName : IteratorKind := window.

Definition IteratorKind_eqb (a b : IteratorKind) : bool :=
  match a, b with
  | parallel, parallel | reduction, reduction | window, window => true
  | _, _ => false
  end.

(** [SmallVector<StringRef, 8>(n, name)] and [iters.append(n, name)]. *)
Definition fillIterators (n : Z) (k : IteratorKind) : list IteratorKind :=
  repeat k (Z.to_nat n).

(** Modelled from the spec: the loop counters of the structured-op interface
    ([getNumParallelLoops], [getNumWindowLoops], [getNumLoops]) are declared
    outside LinalgStructuredOps.td.  Each iteration dimension is classified
    by its iterator kind (section 3), and a counter is the number of
    iterators of its kind in the classification. *)
Definition getNumIterators (k : IteratorKind) (its : list IteratorKind) : Z :=
  Z.of_nat (length (filter (IteratorKind_eqb k) its)).

(** The part of the structured-op interface the operations implement
    ([inputs], [outputs], [iterator_types], [indexing_maps]) and what the
    interface derives from it: the type of the [i]-th input or output and
    the loop counters. *)
Class Operands (Op : Type) : Type := {
  inputs : Op -> list ShapedType;
  outputs : Op -> list ShapedType
}.

Class IteratorTypes (Op : Type) : Type :=
  iterator_types : Op -> Result Failure (list IteratorKind).

Class IndexingMaps (Op : Type) : Type :=
  indexing_maps : Op -> Result Failure (list AffineMap).

Definition noShape : ShapedType := {| extents := [] |}.

Section Interface.
Context {Op : Type} `{Operands Op} `{IteratorTypes Op}.

Definition getInputShapedType (op : Op) (i : nat) : ShapedType :=
  nth i (inputs op) noShape.

Definition getOutputShapedType (op : Op) (i : nat) : ShapedType :=
  nth i (outputs op) noShape.

Definition getNumParallelLoops (op : Op) : Result Failure Z :=
  its <- iterator_types op ;;
  Ok (getNumIterators getParallelIteratorTypeName its).

Definition getNumWindowLoops (op : Op) : Result Failure Z :=
  its <- iterator_types op ;;
  Ok (getNumIterators getWindowIteratorTypeName its).

Definition getNumLoops (op : Op) : Result Failure Z :=
  its <- iterator_types op ;;
  Ok (Z.of_nat (length its)).
End Interface.

(* ================================================================== *)
(** ** linalg.copy *)

Module CopyOp.

Record t : Type := {
  input : ShapedType;
  output : ShapedType;
  inputPermutation : option AffineMap;
  outputPermutation : option AffineMap
}.

(** [inputs()] is [getOperands().take_front()], [outputs()] is
    [getOperands().take_back()]. *)
#[global] Instance operands : Operands t :=
  Build_Operands (fun op => [input op]) (fun op => [output op]).

(** Rank-polymorphic: parallel iterators only. *)
Definition iterator_types (op : t) : Result Failure (list IteratorKind) :=
  let nPar := to_unsigned (getRank (getInputShapedType op 0)) in
  Ok (fillIterators nPar getParallelIteratorTypeName).

#[global] Instance iterators : IteratorTypes t := iterator_types.

(** I(input_perm(ivs)) -> O(output_perm(ivs)) *)
Definition indexing_maps (op : t) : Result Failure (list AffineMap) :=
  let maybeInputMap := inputPermutation op in
  let maybeOutputMap := outputPermutation op in
  let inputRank := to_unsigned (getRank (getInputShapedType op 0)) in
  let outputRank := to_unsigned (getRank (getOutputShapedType op 0)) in
  Ok [extractOrIdentityMap maybeInputMap inputRank;
      extractOrIdentityMap maybeOutputMap outputRank].

#[global] Instance maps : IndexingMaps t := indexing_maps.

End CopyOp.

(* ================================================================== *)
(** ** linalg.fill *)

(** The types admitted for the fill value. *)
Inductive FillValueType : Type := AnyFloat | AnySignlessInteger | AnyVector.

Module FillOp.

Record t : Type := {
  output : ShapedType;
  value : FillValueType
}.

(** [inputs()] is empty, [outputs()] is [getOperands().take_front()]. *)
#[global] Instance operands : Operands t :=
  Build_Operands (fun _ => []) (fun op => [output op]).

(** Rank-polymorphic: filling_value -> O(ivs) with parallel iterators. *)
Definition iterator_types (op : t) : Result Failure (list IteratorKind) :=
  let nPar := to_unsigned (getRank (getOutputShapedType op 0)) in
  Ok (fillIterators nPar getParallelIteratorTypeName).

#[global] Instance iterators : IteratorTypes t := iterator_types.

(** filling_value -> O(ivs) *)
Definition indexing_maps (op : t) : Result Failure (list AffineMap) :=
  nPar <- getNumParallelLoops op ;;
  Ok [extractOrIdentityMap None nPar].

#[global] Instance maps : IndexingMaps t := indexing_maps.

End FillOp.

(* ================================================================== *)
(** ** PoolingBase_Op: the utilities shared by conv and the poolings *)

(** The optional attributes every pooling-like operation carries:
    [strides] and [dilations] are i64 arrays, [padding] an i64 elements
    attribute of (low, high) rows. *)
Class PoolingAttributes (Op : Type) : Type := {
  strides : Op -> option (list Z);
  dilations : Op -> option (list Z);
  padding : Op -> option (list (list Z))
}.

(** Element [(i, j)] of a two-dimensional elements attribute. *)
Definition getValue2 (a : list (list Z)) (i j : nat) : Result Failure Z :=
  match nth_error a i with
  | Some row =>
      match nth_error row j with
      | Some v => Ok v
      | None => Err OutOfBounds
      end
  | None => Err OutOfBounds
  end.

(** Element [i] of an array attribute. *)
Definition getValue1 (a : list Z) (i : nat) : Result Failure Z :=
  match nth_error a i with
  | Some v => Ok v
  | None => Err OutOfBounds
  end.

Section commonUtils.
Context {Op : Type} `{IteratorTypes Op} `{PoolingAttributes Op}.

Definition getStride (op : Op) (i : Z) : Result Failure Z :=
  nWin <- getNumWindowLoops op ;;
  if i <? nWin then
    match strides op with
    | None => Ok 1
    | Some a => getValue1 a (Z.to_nat i)
    end
  else Err (AssertionFailed WindowLoopIndex).

Definition getDilation (op : Op) (i : Z) : Result Failure Z :=
  nWin <- getNumWindowLoops op ;;
  if i <? nWin then
    match dilations op with
    | None => Ok 1
    | Some a => getValue1 a (Z.to_nat i)
    end
  else Err (AssertionFailed WindowLoopIndex).

Definition getLowPad (op : Op) (i : Z) : Result Failure Z :=
  nWin <- getNumWindowLoops op ;;
  if i <? nWin then
    match padding op with
    | None => Ok 0
    | Some a => getValue2 a (Z.to_nat i) 0
    end
  else Err (AssertionFailed WindowLoopIndex).

Definition getHighPad (op : Op) (i : Z) : Result Failure Z :=
  nWin <- getNumWindowLoops op ;;
  if i <? nWin then
    match padding op with
    | None => Ok 0
    | Some a => getValue2 a (Z.to_nat i) 1
    end
  else Err (AssertionFailed WindowLoopIndex).

(** The expression of one spatial dimension:
    [output_coord * stride + window_coord * dilation - low_pad]. *)
Definition weightedExpr (o w : AffineExpr) (stride dilation lowPad : Z)
  : AffineExpr :=
  Add (Add (Mul o (Const stride)) (Mul w (Const dilation)))
      (Const (- lowPad)).

(** Dimensions [i], [i+1], ... of the weighted index. *)
Fixpoint weightedFrom (op : Op) (i : nat)
         (outputDims windowDims : list AffineExpr)
  : Result Failure (list AffineExpr) :=
  match outputDims with
  | [] => Ok []
  | o :: os =>
      match windowDims with
      | [] => Err OutOfBounds
      | w :: ws =>
          s <- getStride op (Z.of_nat i) ;;
          d <- getDilation op (Z.of_nat i) ;;
          p <- getLowPad op (Z.of_nat i) ;;
          rest <- weightedFrom op (S i) os ws ;;
          Ok (weightedExpr o w s d p :: rest)
      end
  end.

(** Modelled from the spec: [weightedPoolingInputIndex(op, outputDims,
    windowDims)] is declared outside LinalgStructuredOps.td.  Section 4.2 gives
    its contract: one expression per spatial dimension, each computed as
    [output_coord[i] * stride[i] + window_coord[i] * dilation[i] -
    low_pad[i]], the three constants being read from [op] through
    [getStride], [getDilation] and [getLowPad]. *)
Definition weightedPoolingInputIndex (op : Op)
           (outputDims windowDims : list AffineExpr)
  : Result Failure (list AffineExpr) :=
  weightedFrom op 0 outputDims windowDims.

End commonUtils.

(* ================================================================== *)
(** ** linalg.conv *)

Module ConvOp.

Record t : Type := {
  filter : ShapedType;
  input : ShapedType;
  output : ShapedType;
  strides : option (list Z);
  dilations : option (list Z);
  padding : option (list (list Z))
}.

(** [inputs()] is [getOperands().slice(0, 2)], [outputs()] is
    [getOperands().take_back()]. *)
#[global] Instance operands : Operands t :=
  Build_Operands (fun op => [filter op; input op]) (fun op => [output op]).

#[global] Instance attributes : PoolingAttributes t :=
  Build_PoolingAttributes strides dilations padding.

Definition getNumBatchDimensions (op : t) : Z := 1.

Definition getNumInputFeatureDimensions (op : t) : Z := 1.

Definition getNumOutputFeatureDimensions (op : t) : Z := 1.

(** The difference is taken in [int64_t], the type of the rank, and
    converted to [unsigned] on return. *)
Definition getNumSpatialDimensions (op : t) : Z :=
  to_unsigned (getRank (getOutputShapedType op 0)
               - getNumBatchDimensions op
               - getNumOutputFeatureDimensions op).

Definition iterator_types (op : t) : Result Failure (list IteratorKind) :=
  (* Outer parallel loops are always the number of output dimensions. *)
  let nPar := to_unsigned (getRank (getOutputShapedType op 0)) in
  let nRed := getNumInputFeatureDimensions op in
  if nPar >? to_unsigned (getNumBatchDimensions op
                          + getNumInputFeatureDimensions op)
  then
    let nWin :=
      to_unsigned (to_unsigned (nPar - getNumBatchDimensions op)
                   - getNumInputFeatureDimensions op) in
    let iters := fillIterators nPar getParallelIteratorTypeName in
    let iters := iters ++ fillIterators nRed getReductionIteratorTypeName in
    let iters := iters ++ fillIterators nWin getWindowIteratorTypeName in
    Ok iters
  else Err (AssertionFailed ConvRankLimit).

#[global] Instance iterators : IteratorTypes t := iterator_types.

(**   F(z0, ..., zN-1, q, k) *
        I(b, x0 + z0 - pad_low_0, ..., xN-1 + zN-1 - pad_low_N-1, q)
      ->  O(b, x0, ..., xN-1, k)
    with the dimensions indexed in loop order [ b, xs, k, q, zs ]. *)
Definition indexing_maps (op : t) : Result Failure (list AffineMap) :=
  nWin <- getNumWindowLoops op ;;
  if nWin >? 0 then
    let idx := 0 in
    let '(bs, idx) := makeAffineDimExprs (getNumBatchDimensions op) idx in
    let '(xs, idx) := makeAffineDimExprs nWin idx in
    let '(ks, idx) :=
      makeAffineDimExprs (getNumOutputFeatureDimensions op) idx in
    let '(qs, idx) :=
      makeAffineDimExprs (getNumInputFeatureDimensions op) idx in
    let '(zs, idx) := makeAffineDimExprs nWin idx in
    ws <- weightedPoolingInputIndex op xs zs ;;
    Ok [AffineMap_get idx 0 (concat (concat zs qs) ks);
        AffineMap_get idx 0 (concat (concat bs ws) qs);
        AffineMap_get idx 0 (concat (concat bs xs) ks)]
  else Err (AssertionFailed ConvWindowDimension).

#[global] Instance maps : IndexingMaps t := indexing_maps.

End ConvOp.

(* ================================================================== *)
(** ** linalg.pooling_max, linalg.pooling_min, linalg.pooling_sum *)

Inductive PoolingMnemonic : Type := pooling_max | pooling_min | pooling_sum.

Module SingleInputPoolingBase_Op.

Record t : Type := {
  mnemonic : PoolingMnemonic;
  input : ShapedType;
  windowDims : ShapedType;
  output : ShapedType;
  strides : option (list Z);
  dilations : option (list Z);
  padding : option (list (list Z))
}.

#[global] Instance operands : Operands t :=
  Build_Operands (fun op => [input op; windowDims op])
                 (fun op => [output op]).

#[global] Instance attributes : PoolingAttributes t :=
  Build_PoolingAttributes strides dilations padding.

Definition iterator_types (op : t) : Result Failure (list IteratorKind) :=
  (* Outer parallel loops are always the number of output dimensions. *)
  let nPar := to_unsigned (getRank (getOutputShapedType op 0)) in
  (* The window loops has the same number loops with output dimensions. *)
  let nWin := nPar in
  let iters := fillIterators nPar getParallelIteratorTypeName in
  let iters := iters ++ fillIterators nWin getWindowIteratorTypeName in
  Ok iters.

#[global] Instance iterators : IteratorTypes t := iterator_types.

Definition indexing_maps (op : t) : Result Failure (list AffineMap) :=
  nPar <- getNumParallelLoops op ;;
  nWin <- getNumWindowLoops op ;;
  if nWin >? 0 then
    let idx := 0 in
    let '(outputDims, idx) := makeAffineDimExprs nPar idx in
    let '(windowDims, idx) := makeAffineDimExprs nWin idx in
    inputDims <- weightedPoolingInputIndex op outputDims windowDims ;;
    Ok [AffineMap_get idx 0 inputDims;
        AffineMap_get idx 0 windowDims;
        AffineMap_get idx 0 outputDims]
  else Err (AssertionFailed PoolingWindowDimension).

#[global] Instance maps : IndexingMaps t := indexing_maps.

End SingleInputPoolingBase_Op.

(* ================================================================== *)
(** ** linalg.generic and linalg.indexed_generic *)

Inductive GenericMnemonic : Type := generic | indexed_generic.

Module GenericOpBase.

Record t : Type := {
  mnemonic : GenericMnemonic;
  inputs : list ShapedType;
  outputs : list ShapedType;
  indexing_maps : list AffineMap;
  iterator_types : list IteratorKind;
  doc : option String.string;
  library_call : option String.string;
  sparse : option (list (list String.string))
}.

Definition getLibraryCallName (op : t) : String.string :=
  match library_call op with
  | Some name => name
  | None => "op_has_no_registered_library_name"%string
  end.

End GenericOpBase.

(* ================================================================== *)
(** ** Operation descriptors and their verification *)

Inductive OperationKind : Type :=
| Copy
| Fill
| Convolution
| Pooling (m : PoolingMnemonic)
| Generic
| IndexedGeneric.

(** The operand roles of the variant table (section 4.3): inputs, outputs and
    the scalar value of a fill. *)
Inductive Role : Type := InputRole | OutputRole | ScalarRole.

Record Operand : Type := { shape : ShapedType; role : Role }.

Module Descriptor.

(** Modelled from the spec: the Operation Descriptor of section 3.  The
    per-element body is an opaque reference and is left out. *)
Record t : Type := {
  kind : OperationKind;
  operands : list Operand;
  indexing_maps : list AffineMap;
  iterators : list IteratorKind;
  library_call : option String.string
}.

End Descriptor.

Definition isWindowBased (k : OperationKind) : bool :=
  match k with
  | Convolution | Pooling _ => true
  | _ => false
  end.

Definition isOutput (o : Operand) : bool :=
  match role o with
  | OutputRole => true
  | _ => false
  end.

(** Arity of each map against the rank of the operand it is bound to. *)
Fixpoint aritiesMatch (ms : list AffineMap) (os : list Operand) : bool :=
  match ms, os with
  | m :: ms', o :: os' =>
      (Z.of_nat (length (results m)) =? getRank (shape o))
      && aritiesMatch ms' os'
  | _, _ => true
  end.

(** Modelled from the spec: the verifier entry points [::verify] are outside
    LinalgStructuredOps.td.  Section 4.4 gives [verify(descriptor)] as five
    checks made in order, the first failure winning:
    1. [len(indexing_maps) == len(operands)] else [OperandMapCountMismatch];
    2. every map's [domain_rank == len(iterators)] else
       [IteratorRankMismatch];
    3. every map's result arity is its operand's rank else
       [OperandRankMismatch];
    4. window-based variants: window-dimension count > 0 else
       [NoWindowDimension];
    5. at least one output operand else [NoOutput]. *)
Definition verify (d : Descriptor.t) : Result Error unit :=
  if negb (length (Descriptor.indexing_maps d)
           =? length (Descriptor.operands d))%nat
  then Err OperandMapCountMismatch
  else if negb (forallb
                  (fun m => numDims m
                            =? Z.of_nat (length (Descriptor.iterators d)))
                  (Descriptor.indexing_maps d))
  then Err IteratorRankMismatch
  else if negb (aritiesMatch (Descriptor.indexing_maps d)
                             (Descriptor.operands d))
  then Err OperandRankMismatch
  else if isWindowBased (Descriptor.kind d)
          && negb (getNumIterators window (Descriptor.iterators d) >? 0)
  then Err NoWindowDimension
  else if negb (existsb isOutput (Descriptor.operands d))
  then Err NoOutput
  else Ok tt.

(** Modelled from the spec: the factory of a named variant (sections 2 and
    4.3) builds the descriptor from the variant's kind and operand list and
    from the classification and maps the operation derives. *)
Definition describe {Op : Type} `{IteratorTypes Op} `{IndexingMaps Op}
           (k : OperationKind) (os : list Operand) (op : Op)
  : Result Failure Descriptor.t :=
  its <- iterator_types op ;;
  ms <- indexing_maps op ;;
  Ok {| Descriptor.kind := k;
        Descriptor.operands := os;
        Descriptor.indexing_maps := ms;
        Descriptor.iterators := its;
        Descriptor.library_call := None |}.

Definition asInput (s : ShapedType) : Operand :=
  {| shape := s; role := InputRole |}.

Definition asOutput (s : ShapedType) : Operand :=
  {| shape := s; role := OutputRole |}.

(** A scalar operand has no extents. *)
Definition asScalar : Operand := {| shape := noShape; role := ScalarRole |}.

(** The construction paths, with the operands in the order of each
    operation's [arguments]. *)
Definition describeCopy (op : CopyOp.t) : Result Failure Descriptor.t :=
  describe Copy [asInput (CopyOp.input op); asOutput (CopyOp.output op)] op.

Definition describeFill (op : FillOp.t) : Result Failure Descriptor.t :=
  describe Fill [asOutput (FillOp.output op); asScalar] op.

Definition describeConv (op : ConvOp.t) : Result Failure Descriptor.t :=
  describe Convolution
    [asInput (ConvOp.filter op); asInput (ConvOp.input op);
     asOutput (ConvOp.output op)] op.

Definition describePooling (op : SingleInputPoolingBase_Op.t)
  : Result Failure Descriptor.t :=
  describe (Pooling (SingleInputPoolingBase_Op.mnemonic op))
    [asInput (SingleInputPoolingBase_Op.input op);
     asInput (SingleInputPoolingBase_Op.windowDims op);
     asOutput (SingleInputPoolingBase_Op.output op)] op.

Definition describeGeneric (op : GenericOpBase.t) : Descriptor.t :=
  {| Descriptor.kind :=
       match GenericOpBase.mnemonic op with
       | generic => Generic
       | indexed_generic => IndexedGeneric
       end;
     Descriptor.operands :=
       map asInput (GenericOpBase.inputs op)
       ++ map asOutput (GenericOpBase.outputs op);
     Descriptor.indexing_maps := GenericOpBase.indexing_maps op;
     Descriptor.iterators := GenericOpBase.iterator_types op;
     Descriptor.library_call := GenericOpBase.library_call op |}.

(** The descriptors the five construction paths produce. *)
Inductive Constructed : Descriptor.t -> Prop :=
| ByCopy (op : CopyOp.t) (d : Descriptor.t) :
    describeCopy op = Ok d -> Constructed d
| ByFill (op : FillOp.t) (d : Descriptor.t) :
    describeFill op = Ok d -> Constructed d
| ByConvolution (op : ConvOp.t) (d : Descriptor.t) :
    describeConv op = Ok d -> Constructed d
| ByPooling (op : SingleInputPoolingBase_Op.t) (d : Descriptor.t) :
    describePooling op = Ok d -> Constructed d
| ByGeneric (op : GenericOpBase.t) :
    Constructed (describeGeneric op).


(* ================================================================== *)
(** ** Vocabulary of the statements *)

(** The coordinates a map yields at an iteration-space point. *)
Definition evalMap (point : Z -> Z) (m : AffineMap) : list Z :=
  map (eval point) (results m).

(** [inIdx] is the weighted index of window dimension [i] of [op]: with the
    stride, dilation and low padding [op] answers for [i], its value is
    [outIdx * stride + winIdx * dilation - low_pad] at every point. *)
Definition isWeightedIndex {Op : Type} `{IteratorTypes Op}
           `{PoolingAttributes Op}
           (op : Op) (i : nat) (inIdx outIdx winIdx : AffineExpr) : Prop :=
  exists s d p,
    getStride op (Z.of_nat i) = Ok s /\
    getDilation op (Z.of_nat i) = Ok d /\
    getLowPad op (Z.of_nat i) = Ok p /\
    forall point,
      eval point inIdx = eval point outIdx * s + eval point winIdx * d - p.

(** [inIdx] is the weighted index of window dimension [i] under the given
    attributes: its value at every point is
    [outIdx * stride + winIdx * dilation - low_pad], where [stride] and
    [dilation] are entry [i] of the strides and dilations arrays (1 when
    the array is absent) and [low_pad] is entry [(i, 0)] of the padding
    (0 when the padding is absent). *)
Definition isWeightedBy (stridesAttr dilationsAttr : option (list Z))
           (paddingAttr : option (list (list Z)))
           (i : nat) (inIdx outIdx winIdx : AffineExpr) : Prop :=
  exists s d p,
    match stridesAttr with
    | None => s = 1
    | Some a => nth_error a i = Some s
    end /\
    match dilationsAttr with
    | None => d = 1
    | Some a => nth_error a i = Some d
    end /\
    match paddingAttr with
    | None => p = 0
    | Some rows =>
        exists row, nth_error rows i = Some row /\ nth_error row 0 = Some p
    end /\
    forall point,
      eval point inIdx = eval point outIdx * s + eval point winIdx * d - p.

(** An array attribute, when present, has an entry for each of the first [n]
    window dimensions. *)
Definition coversArray (a : option (list Z)) (n : nat) : bool :=
  match a with
  | None => true
  | Some l => (n <=? length l)%nat
  end.

(** The padding attribute, when present, has a row with a low entry for each
    of the first [n] window dimensions. *)
Definition coversPadding (a : option (list (list Z))) (n : nat) : bool :=
  match a with
  | None => true
  | Some rows =>
      (n <=? length rows)%nat
      && forallb (fun row => (1 <=? length row)%nat) (firstn n rows)
  end.

Definition attributesCover {Op : Type} `{PoolingAttributes Op}
           (op : Op) (n : nat) : bool :=
  coversArray (strides op) n
  && coversArray (dilations op) n
  && coversPadding (padding op) n.

Definition anyExpr : AffineExpr := Const 0.

(** The iteration-space dimensions of a convolution with [n] window
    dimensions, in loop order: the batch dimension, the [n] image
    dimensions, the output feature, the input feature, the [n] window
    dimensions. *)
Definition convBatch : list AffineExpr := dimExprs 1 0.
Definition convImage (n : Z) : list AffineExpr := dimExprs (Z.to_nat n) 1.
Definition convOutFeature (n : Z) : list AffineExpr := dimExprs 1 (n + 1).
Definition convInFeature (n : Z) : list AffineExpr := dimExprs 1 (n + 2).
Definition convWindow (n : Z) : list AffineExpr :=
  dimExprs (Z.to_nat n) (n + 3).

(** The iteration-space dimensions of a pooling with [n] output dimensions:
    the output dimensions, then as many window dimensions. *)
Definition poolingOutput (n : Z) : list AffineExpr := dimExprs (Z.to_nat n) 0.
Definition poolingWindow (n : Z) : list AffineExpr := dimExprs (Z.to_nat n) n.

(* ================================================================== *)
(** ** Sample operations *)

(** The static shape with the given sizes. *)
Definition staticShape (sizes : list Z) : ShapedType :=
  {| extents := map (fun n => {| is_dynamic := false; size := n |}) sizes |}.

(** A 2-D convolution (batch, two image dimensions, feature) with strides
    [2,2], dilations [1,1] and zero padding. *)
Definition conv2d : ConvOp.t :=
  {| ConvOp.filter := staticShape [3; 3; 8; 16];
     ConvOp.input := staticShape [1; 9; 9; 8];
     ConvOp.output := staticShape [1; 4; 4; 16];
     ConvOp.strides := Some [2; 2];
     ConvOp.dilations := Some [1; 1];
     ConvOp.padding := Some [[0; 0]; [0; 0]] |}.

(** A 2-D convolution with strides [2,3], dilations [3,2] and low paddings
    1 and 4. *)
Definition convDilated : ConvOp.t :=
  {| ConvOp.filter := staticShape [3; 3; 8; 16];
     ConvOp.input := staticShape [1; 9; 9; 8];
     ConvOp.output := staticShape [1; 4; 4; 16];
     ConvOp.strides := Some [2; 3];
     ConvOp.dilations := Some [3; 2];
     ConvOp.padding := Some [[1; 0]; [4; 2]] |}.

(** Min pooling with strides [2,3], dilations [3,2] and low paddings 1
    and 4. *)
Definition poolingDilated : SingleInputPoolingBase_Op.t :=
  {| SingleInputPoolingBase_Op.mnemonic := pooling_min;
     SingleInputPoolingBase_Op.input := staticShape [9; 9];
     SingleInputPoolingBase_Op.windowDims := staticShape [2; 2];
     SingleInputPoolingBase_Op.output := staticShape [4; 4];
     SingleInputPoolingBase_Op.strides := Some [2; 3];
     SingleInputPoolingBase_Op.dilations := Some [3; 2];
     SingleInputPoolingBase_Op.padding := Some [[1; 0]; [4; 2]] |}.

(** The same convolution without any of the optional attributes. *)
Definition conv2dPlain : ConvOp.t :=
  {| ConvOp.filter := staticShape [3; 3; 8; 16];
     ConvOp.input := staticShape [1; 9; 9; 8];
     ConvOp.output := staticShape [1; 4; 4; 16];
     ConvOp.strides := None;
     ConvOp.dilations := None;
     ConvOp.padding := None |}.


(** Max pooling of a 4x4 input by a 2x2 window with stride 2. *)
Definition poolingMax4x4 : SingleInputPoolingBase_Op.t :=
  {| SingleInputPoolingBase_Op.mnemonic := pooling_max;
     SingleInputPoolingBase_Op.input := staticShape [4; 4];
     SingleInputPoolingBase_Op.windowDims := staticShape [2; 2];
     SingleInputPoolingBase_Op.output := staticShape [2; 2];
     SingleInputPoolingBase_Op.strides := Some [2; 2];
     SingleInputPoolingBase_Op.dilations := None;
     SingleInputPoolingBase_Op.padding := None |}.

Definition fill2d : FillOp.t :=
  {| FillOp.output := staticShape [4; 4]; FillOp.value := AnyFloat |}.

(** A copy of a rank-3 view, the input read through (i, j, k) -> (i, k, j). *)
Definition copy3d : CopyOp.t :=
  {| CopyOp.input := staticShape [2; 3; 4];
     CopyOp.output := staticShape [2; 4; 3];
     CopyOp.inputPermutation :=
       Some (AffineMap_get 3 0 [Dim 0; Dim 2; Dim 1]);
     CopyOp.outputPermutation := None |}.

(** The matmul trait of the documentation, as a generic operation. *)
Definition matmulGeneric : GenericOpBase.t :=
  {| GenericOpBase.mnemonic := generic;
     GenericOpBase.inputs := [staticShape [4; 8]; staticShape [8; 2]];
     GenericOpBase.outputs := [staticShape [4; 2]];
     GenericOpBase.indexing_maps :=
       [AffineMap_get 3 0 [Dim 0; Dim 2];
        AffineMap_get 3 0 [Dim 2; Dim 1];
        AffineMap_get 3 0 [Dim 0; Dim 1]];
     GenericOpBase.iterator_types := [parallel; parallel; reduction];
     GenericOpBase.doc := Some "C(m, n) += A(m, k) * B(k, n)"%string;
     GenericOpBase.library_call := Some "linalg_matmul"%string;
     GenericOpBase.sparse := None |}.

(** A generic operation with three maps for its two operands. *)
Definition genericExtraMap : GenericOpBase.t :=
  {| GenericOpBase.mnemonic := generic;
     GenericOpBase.inputs := [staticShape [4]];
     GenericOpBase.outputs := [staticShape [4]];
     GenericOpBase.indexing_maps :=
       [AffineMap_get 1 0 [Dim 0]; AffineMap_get 1 0 [Dim 0];
        AffineMap_get 1 0 [Dim 0]];
     GenericOpBase.iterator_types := [parallel];
     GenericOpBase.doc := None;
     GenericOpBase.library_call := None;
     GenericOpBase.sparse := None |}.

(** An indexed generic operation without a library call. *)
Definition indexedPlain : GenericOpBase.t :=
  {| GenericOpBase.mnemonic := indexed_generic;
     GenericOpBase.inputs := [staticShape [4]];
     GenericOpBase.outputs := [staticShape [4]];
     GenericOpBase.indexing_maps :=
       [AffineMap_get 1 0 [Dim 0]; AffineMap_get 1 0 [Dim 0]];
     GenericOpBase.iterator_types := [parallel];
     GenericOpBase.doc := None;
     GenericOpBase.library_call := None;
     GenericOpBase.sparse := None |}.

(* ================================================================== *)
(** ** Further counters and well-formed maps *)

Section InterfaceReduction.
Context {Op : Type} `{IteratorTypes Op}.

(** The counter of the reduction loops, [getNumReductionLoops]. *)
Definition getNumReductionLoops (op : Op) : Result Failure Z :=
  its <- iterator_types op ;;
  Ok (getNumIterators getReductionIteratorTypeName its).

End InterfaceReduction.

(** Every dimension reference of [e] is one of the first [n] dimensions. *)
Fixpoint dimsBelow (n : Z) (e : AffineExpr) : bool :=
  match e with
  | Dim p => (0 <=? p) && (p <? n)
  | Const _ => true
  | Add a b => dimsBelow n a && dimsBelow n b
  | Mul a b => dimsBelow n a && dimsBelow n b
  end.

(** A map over [loops] loops that indexes an operand of rank [rank]: no
    symbols, one result per operand dimension, every dimension reference
    inside the iteration space. *)
Definition indexesOperand (loops rank : Z) (m : AffineMap) : Prop :=
  numDims m = loops /\
  numSymbols m = 0 /\
  Z.of_nat (length (results m)) = rank /\
  forallb (dimsBelow loops) (results m) = true.

(** A copy of a rank-2 view into a rank-3 view, which nothing forbids. *)
Definition copyMismatched : CopyOp.t :=
  {| CopyOp.input := staticShape [2; 3];
     CopyOp.output := staticShape [2; 3; 4];
     CopyOp.inputPermutation := None;
     CopyOp.outputPermutation := None |}.

(** An ill-formed convolution on rank-1 operands. *)
Definition convRank1 : ConvOp.t :=
  {| ConvOp.filter := staticShape [3];
     ConvOp.input := staticShape [9];
     ConvOp.output := staticShape [7];
     ConvOp.strides := None;
     ConvOp.dilations := None;
     ConvOp.padding := None |}.

(** Sum pooling without any of the optional attributes. *)
Definition poolingPlain : SingleInputPoolingBase_Op.t :=
  {| SingleInputPoolingBase_Op.mnemonic := pooling_sum;
     SingleInputPoolingBase_Op.input := staticShape [4; 4];
     SingleInputPoolingBase_Op.windowDims := staticShape [2; 2];
     SingleInputPoolingBase_Op.output := staticShape [3; 3];
     SingleInputPoolingBase_Op.strides := None;
     SingleInputPoolingBase_Op.dilations := None;
     SingleInputPoolingBase_Op.padding := None |}.

(* ================================================================== *)
(** ** neon-truncate-min-max.ll: the functions of the combine test *)

Module NeonTruncateMinMax.

(** A value of type [iN] is its bit pattern, a [Z] in the range
    [0, 2^N); [iN N c] is the constant written [iN c] in the IR. *)
Definition iN (bits c : Z) : Z := c mod 2 ^ bits.

(** The two's-complement reading of a bit pattern. *)
Definition signed (bits x : Z) : Z :=
  if x <? 2 ^ (bits - 1) then x else x - 2 ^ bits.

Definition icmp_slt (bits a b : Z) : bool := signed bits a <? signed bits b.

Definition icmp_sgt (bits a b : Z) : bool := signed bits a >? signed bits b.

Definition icmp_ult (a b : Z) : bool := a <? b.

Definition select (c : bool) (a b : Z) : Z := if c then a else b.

Definition trunc (bits x : Z) : Z := x mod 2 ^ bits.

(** Vector instructions work lane by lane. *)
Definition splat (lanes : nat) (c : Z) : list Z := repeat c lanes.

Fixpoint vicmp (p : Z -> Z -> bool) (a b : list Z) : list bool :=
  match a, b with
  | x :: a', y :: b' => p x y :: vicmp p a' b'
  | _, _ => []
  end.

Fixpoint vselect (c : list bool) (a b : list Z) : list Z :=
  match c, a, b with
  | k :: c', x :: a', y :: b' => select k x y :: vselect c' a' b'
  | _, _, _ => []
  end.

Definition vtrunc (bits : Z) (a : list Z) : list Z := map (trunc bits) a.

(** [define <8 x i8> @t0(<8 x i16> %in)] *)
Definition t0 (v_in : list Z) : list Z :=
  let slt_i := vicmp (icmp_slt 16) v_in (splat 8 (iN 16 127)) in
  let min_i := vselect slt_i v_in (splat 8 (iN 16 127)) in
  let slt_j := vicmp (icmp_sgt 16) min_i (splat 8 (iN 16 (-128))) in
  let max_i := vselect slt_j min_i (splat 8 (iN 16 (-128))) in
  let trunc_i := vtrunc 8 max_i in
  trunc_i.

(** [define <4 x i16> @t1(<4 x i32> %in)] *)
Definition t1 (v_in : list Z) : list Z :=
  let slt_i := vicmp (icmp_slt 32) v_in (splat 4 (iN 32 32767)) in
  let min_i := vselect slt_i v_in (splat 4 (iN 32 32767)) in
  let slt_j := vicmp (icmp_sgt 32) min_i (splat 4 (iN 32 (-32768))) in
  let max_i := vselect slt_j min_i (splat 4 (iN 32 (-32768))) in
  let trunc_i := vtrunc 16 max_i in
  trunc_i.

(** [define <8 x i8> @t2(<8 x i16> %in)] *)
Definition t2 (v_in : list Z) : list Z :=
  let slt_i := vicmp icmp_ult v_in (splat 8 (iN 16 255)) in
  let min_i := vselect slt_i v_in (splat 8 (iN 16 255)) in
  let trunc_i := vtrunc 8 min_i in
  trunc_i.

(** [define <4 x i16> @t3(<4 x i32> %in)] *)
Definition t3 (v_in : list Z) : list Z :=
  let slt_i := vicmp icmp_ult v_in (splat 4 (iN 32 65535)) in
  let min_i := vselect slt_i v_in (splat 4 (iN 32 65535)) in
  let trunc_i := vtrunc 16 min_i in
  trunc_i.

(** What one lane goes through in [t0], [t1], [t2] and [t3]. *)
Definition lane_t0 (x : Z) : Z :=
  let m := select (icmp_slt 16 x (iN 16 127)) x (iN 16 127) in
  trunc 8 (select (icmp_sgt 16 m (iN 16 (-128))) m (iN 16 (-128))).

Definition lane_t1 (x : Z) : Z :=
  let m := select (icmp_slt 32 x (iN 32 32767)) x (iN 32 32767) in
  trunc 16 (select (icmp_sgt 32 m (iN 32 (-32768))) m (iN 32 (-32768))).

Definition lane_t2 (x : Z) : Z :=
  trunc 8 (select (icmp_ult x (iN 16 255)) x (iN 16 255)).

Definition lane_t3 (x : Z) : Z :=
  trunc 16 (select (icmp_ult x (iN 32 65535)) x (iN 32 65535)).

(** A value of type [<lanes x iN>]. *)
Definition isVector (lanes : nat) (bits : Z) (v : list Z) : Prop :=
  length v = lanes /\ Forall (fun x => 0 <= x < 2 ^ bits) v.

(** Saturation of an integer to the signed and to the unsigned range of
    [bits] bits, what [vqmovn.s] and [vqmovn.u] compute in each lane. *)
Definition ssat (bits x : Z) : Z :=
  Z.max (- 2 ^ (bits - 1)) (Z.min (2 ^ (bits - 1) - 1) x).

Definition usat (bits x : Z) : Z := Z.min (2 ^ bits - 1) x.

End NeonTruncateMinMax.

(* ================================================================== *)
(** ** Lemmas on unsigned arithmetic, iterators and dimension vectors *)

Lemma to_unsigned_small (z : Z) :
  0 <= z < UNSIGNED_MAX -> to_unsigned z = z.
Proof. intros Hz. unfold to_unsigned. now apply Z.mod_small. Qed.

Lemma getRank_nonneg (t : ShapedType) : 0 <= getRank t.
Proof. unfold getRank. lia. Qed.

Lemma length_fillIterators (n : Z) (k : IteratorKind) :
  length (fillIterators n k) = Z.to_nat n.
Proof. unfold fillIterators. apply repeat_length. Qed.

Lemma getNumIterators_app (k : IteratorKind) (a b : list IteratorKind) :
  getNumIterators k (a ++ b) = getNumIterators k a + getNumIterators k b.
Proof.
  unfold getNumIterators. rewrite filter_app, length_app. lia.
Qed.

Lemma filter_repeat_same (k : IteratorKind) (n : nat) :
  filter (IteratorKind_eqb k) (repeat k n) = repeat k n.
Proof.
  induction n as [|n IH]; simpl; [reflexivity|].
  destruct k; simpl; now rewrite IH.
Qed.

Lemma filter_repeat_other (k k' : IteratorKind) (n : nat) :
  IteratorKind_eqb k k' = false ->
  filter (IteratorKind_eqb k) (repeat k' n) = [].
Proof.
  intros Hk. induction n as [|n IH]; simpl; [reflexivity|].
  now rewrite Hk.
Qed.

Lemma getNumIterators_same (k : IteratorKind) (n : Z) :
  0 <= n -> getNumIterators k (fillIterators n k) = n.
Proof.
  intros Hn. unfold getNumIterators, fillIterators.
  rewrite filter_repeat_same, repeat_length. lia.
Qed.

Lemma getNumIterators_other (k k' : IteratorKind) (n : Z) :
  IteratorKind_eqb k k' = false ->
  getNumIterators k (fillIterators n k') = 0.
Proof.
  intros Hk. unfold getNumIterators, fillIterators.
  now rewrite filter_repeat_other.
Qed.

Lemma length_dimExprs (n : nat) (start : Z) :
  length (dimExprs n start) = n.
Proof.
  revert start. induction n as [|n IH]; intros start; simpl; [reflexivity|].
  now rewrite IH.
Qed.

Lemma makeAffineDimExprs_small (num idx : Z) :
  0 <= idx -> 0 <= num -> idx + num < UNSIGNED_MAX ->
  makeAffineDimExprs num idx = (dimExprs (Z.to_nat num) idx, idx + num).
Proof.
  intros Hi Hn Hs. unfold makeAffineDimExprs.
  rewrite to_unsigned_small by lia. reflexivity.
Qed.

(** *** The shared utilities, for an operation whose window-loop count is
        known *)

Section commonUtilsFacts.
Context {Op : Type} `{IteratorTypes Op} `{PoolingAttributes Op}.
Variable op : Op.
Variable nWin : Z.
Hypothesis HnWin : getNumWindowLoops op = Ok nWin.

Lemma getStride_in_range (i : nat) :
  Z.of_nat i < nWin ->
  getStride op (Z.of_nat i)
  = match strides op with None => Ok 1 | Some a => getValue1 a i end.
Proof.
  intros Hi. unfold getStride. rewrite HnWin. simpl.
  destruct (Z.ltb_spec (Z.of_nat i) nWin) as [_|Hge]; [|lia].
  now rewrite Nat2Z.id.
Qed.

Lemma getDilation_in_range (i : nat) :
  Z.of_nat i < nWin ->
  getDilation op (Z.of_nat i)
  = match dilations op with None => Ok 1 | Some a => getValue1 a i end.
Proof.
  intros Hi. unfold getDilation. rewrite HnWin. simpl.
  destruct (Z.ltb_spec (Z.of_nat i) nWin) as [_|Hge]; [|lia].
  now rewrite Nat2Z.id.
Qed.

Lemma getLowPad_in_range (i : nat) :
  Z.of_nat i < nWin ->
  getLowPad op (Z.of_nat i)
  = match padding op with None => Ok 0 | Some a => getValue2 a i 0 end.
Proof.
  intros Hi. unfold getLowPad. rewrite HnWin. simpl.
  destruct (Z.ltb_spec (Z.of_nat i) nWin) as [_|Hge]; [|lia].
  now rewrite Nat2Z.id.
Qed.




(** What a successful run of the weighted index returns. *)
Lemma weightedFrom_ok (os ws r : list AffineExpr) (i : nat) :
  weightedFrom op i os ws = Ok r ->
  length r = length os /\
  forall j, (j < length os)%nat ->
    isWeightedIndex op (i + j) (nth j r anyExpr) (nth j os anyExpr)
                    (nth j ws anyExpr).
Proof.
  revert ws r i. induction os as [|o os IH]; intros ws r i Hr; simpl in *.
  - inversion Hr. split; [reflexivity|]. intros j Hj. lia.
  - destruct ws as [|w ws]; [discriminate|].
    destruct (getStride op (Z.of_nat i)) as [s|] eqn:Hs; [|discriminate].
    destruct (getDilation op (Z.of_nat i)) as [d|] eqn:Hd; [|discriminate].
    destruct (getLowPad op (Z.of_nat i)) as [p|] eqn:Hp; [|discriminate].
    simpl in Hr.
    destruct (weightedFrom op (S i) os ws) as [rest|] eqn:Hrest;
      [|discriminate].
    simpl in Hr. inversion Hr; subst r. clear Hr.
    destruct (IH ws rest (S i) Hrest) as [Hlen Hnth].
    split; [simpl; now rewrite Hlen|].
    intros [|j] Hj.
    + rewrite Nat.add_0_r. exists s, d, p.
      split; [assumption|]. split; [assumption|]. split; [assumption|].
      intros point. simpl. lia.
    + replace (i + S j)%nat with (S i + j)%nat by lia.
      simpl. apply Hnth. lia.
Qed.

(** With attributes that cover the window dimensions, the weighted index
    is produced. *)
Lemma weightedFrom_returns (os ws : list AffineExpr) (i : nat) :
  Z.of_nat (i + length os) <= nWin ->
  (length os <= length ws)%nat ->
  attributesCover op (i + length os) = true ->
  exists r, weightedFrom op i os ws = Ok r.
Proof.
  revert ws i. induction os as [|o os IH]; intros ws i Hi Hlen Hcov; simpl.
  - now exists [].
  - destruct ws as [|w ws]; [simpl in Hlen; lia|].
    simpl in Hi, Hlen, Hcov.
    rewrite getStride_in_range, getDilation_in_range, getLowPad_in_range
      by lia.
    unfold attributesCover in Hcov.
    apply andb_prop in Hcov as [Hcov Hpad].
    apply andb_prop in Hcov as [Hstr Hdil].
    assert (Hs : exists s,
               match strides op with
               | None => Ok 1 | Some a => getValue1 a i end
               = @Ok Failure Z s).
    { destruct (strides op) as [a|]; [|now exists 1].
      simpl in Hstr. apply Nat.leb_le in Hstr. unfold getValue1.
      destruct (nth_error a i) as [v|] eqn:Hv; [now exists v|].
      apply nth_error_None in Hv. lia. }
    assert (Hd : exists d,
               match dilations op with
               | None => Ok 1 | Some a => getValue1 a i end
               = @Ok Failure Z d).
    { destruct (dilations op) as [a|]; [|now exists 1].
      simpl in Hdil. apply Nat.leb_le in Hdil. unfold getValue1.
      destruct (nth_error a i) as [v|] eqn:Hv; [now exists v|].
      apply nth_error_None in Hv. lia. }
    assert (Hp : exists p,
               match padding op with
               | None => Ok 0 | Some a => getValue2 a i 0 end
               = @Ok Failure Z p).
    { destruct (padding op) as [rows|]; [|now exists 0].
      simpl in Hpad. apply andb_prop in Hpad as [Hrows Hall].
      apply Nat.leb_le in Hrows. unfold getValue2.
      destruct (nth_error rows i) as [row|] eqn:Hrow;
        [|apply nth_error_None in Hrow; lia].
      rewrite forallb_forall in Hall.
      assert (Hin : In row (firstn (i + S (length os)) rows)).
      { apply nth_error_In with (n := i).
        rewrite nth_error_firstn.
        destruct (Nat.ltb_spec i (i + S (length os))); [assumption|lia]. }
      apply Hall in Hin.
      destruct row as [|v row]; [discriminate Hin|]. now exists v. }
    destruct Hs as [s ->], Hd as [d ->], Hp as [p ->]. simpl.
    destruct (IH ws (S i)) as [rest ->].
    + lia.
    + lia.
    + replace (S i + length os)%nat with (i + S (length os))%nat by lia.
      unfold attributesCover. now rewrite Hstr, Hdil, Hpad.
    + simpl. eexists. reflexivity.
Qed.

End commonUtilsFacts.

(** *** linalg.conv *)

Lemma ConvOp_output_type (op : ConvOp.t) :
  getOutputShapedType op 0 = ConvOp.output op.
Proof. reflexivity. Qed.

Lemma ConvOp_iterator_types_ok (op : ConvOp.t) :
  2 < getRank (ConvOp.output op) < UNSIGNED_MAX ->
  ConvOp.iterator_types op
  = Ok (fillIterators (getRank (ConvOp.output op)) parallel
        ++ fillIterators 1 reduction
        ++ fillIterators (getRank (ConvOp.output op) - 2) window).
Proof.
  intros Hr. unfold ConvOp.iterator_types.
  rewrite ConvOp_output_type.
  unfold ConvOp.getNumBatchDimensions, ConvOp.getNumInputFeatureDimensions.
  rewrite (to_unsigned_small (z := getRank (ConvOp.output op))) by lia.
  rewrite (to_unsigned_small (z := 1 + 1)) by (unfold UNSIGNED_MAX; lia).
  destruct (Z.gtb_spec (getRank (ConvOp.output op)) (1 + 1)) as [_|Hle];
    [|lia].
  rewrite (to_unsigned_small (z := getRank (ConvOp.output op) - 1)) by lia.
  rewrite to_unsigned_small by lia.
  unfold getParallelIteratorTypeName, getReductionIteratorTypeName,
    getWindowIteratorTypeName.
  rewrite <- app_assoc.
  replace (getRank (ConvOp.output op) - 1 - 1)
    with (getRank (ConvOp.output op) - 2) by lia.
  reflexivity.
Qed.

Lemma ConvOp_iterator_types_rank_limit (op : ConvOp.t) :
  getRank (ConvOp.output op) <= 2 ->
  ConvOp.iterator_types op = Err (AssertionFailed ConvRankLimit).
Proof.
  intros Hr. pose proof (getRank_nonneg (ConvOp.output op)) as H0.
  unfold ConvOp.iterator_types.
  rewrite ConvOp_output_type.
  unfold ConvOp.getNumBatchDimensions, ConvOp.getNumInputFeatureDimensions.
  rewrite (to_unsigned_small (z := getRank (ConvOp.output op)))
    by (unfold UNSIGNED_MAX; lia).
  rewrite (to_unsigned_small (z := 1 + 1)) by (unfold UNSIGNED_MAX; lia).
  destruct (Z.gtb_spec (getRank (ConvOp.output op)) (1 + 1)) as [Hgt|_];
    [lia|reflexivity].
Qed.

Lemma ConvOp_getNumWindowLoops (op : ConvOp.t) :
  2 < getRank (ConvOp.output op) < UNSIGNED_MAX ->
  getNumWindowLoops op = Ok (getRank (ConvOp.output op) - 2).
Proof.
  intros Hr. unfold getNumWindowLoops, iterator_types, ConvOp.iterators.
  rewrite ConvOp_iterator_types_ok by assumption. cbn [bind].
  unfold getWindowIteratorTypeName.
  rewrite !getNumIterators_app.
  rewrite !getNumIterators_other by reflexivity.
  rewrite getNumIterators_same by lia. reflexivity.
Qed.

Lemma ConvOp_getNumLoops (op : ConvOp.t) :
  2 < getRank (ConvOp.output op) < UNSIGNED_MAX ->
  getNumLoops op = Ok (2 * getRank (ConvOp.output op) - 1).
Proof.
  intros Hr. unfold getNumLoops, iterator_types, ConvOp.iterators.
  rewrite ConvOp_iterator_types_ok by assumption. cbn [bind].
  rewrite !length_app, !length_fillIterators. f_equal. lia.
Qed.

Lemma ConvOp_indexing_maps_unfold (op : ConvOp.t) :
  2 < getRank (ConvOp.output op) ->
  2 * getRank (ConvOp.output op) <= UNSIGNED_MAX ->
  ConvOp.indexing_maps op
  = (ws <- weightedPoolingInputIndex op
             (convImage (getRank (ConvOp.output op) - 2))
             (convWindow (getRank (ConvOp.output op) - 2)) ;;
     Ok [AffineMap_get (2 * getRank (ConvOp.output op) - 1) 0
           (convWindow (getRank (ConvOp.output op) - 2)
            ++ convInFeature (getRank (ConvOp.output op) - 2)
            ++ convOutFeature (getRank (ConvOp.output op) - 2));
         AffineMap_get (2 * getRank (ConvOp.output op) - 1) 0
           (convBatch ++ ws
            ++ convInFeature (getRank (ConvOp.output op) - 2));
         AffineMap_get (2 * getRank (ConvOp.output op) - 1) 0
           (convBatch ++ convImage (getRank (ConvOp.output op) - 2)
            ++ convOutFeature (getRank (ConvOp.output op) - 2))]).
Proof.
  intros Hr Hb. unfold ConvOp.indexing_maps.
  rewrite ConvOp_getNumWindowLoops by lia. cbn [bind].
  set (n := getRank (ConvOp.output op) - 2) in *.
  replace (2 * getRank (ConvOp.output op) - 1) with (2 * n + 3) by lia.
  destruct (Z.gtb_spec n 0) as [_|Hle]; [|lia].
  unfold ConvOp.getNumBatchDimensions, ConvOp.getNumOutputFeatureDimensions,
    ConvOp.getNumInputFeatureDimensions.
  rewrite (makeAffineDimExprs_small (num := 1) (idx := 0)) by lia.
  rewrite (makeAffineDimExprs_small (num := n) (idx := 0 + 1)) by lia.
  rewrite (makeAffineDimExprs_small (num := 1) (idx := 0 + 1 + n)) by lia.
  rewrite (makeAffineDimExprs_small (num := 1) (idx := 0 + 1 + n + 1))
    by lia.
  rewrite (makeAffineDimExprs_small (num := n) (idx := 0 + 1 + n + 1 + 1))
    by lia.
  unfold convBatch, convImage, convOutFeature, convInFeature, convWindow,
    concat.
  replace (0 + 1 + n + 1 + 1 + n) with (2 * n + 3) by lia.
  replace (0 + 1 + n + 1 + 1) with (n + 3) by lia.
  replace (0 + 1 + n + 1) with (n + 2) by lia.
  replace (0 + 1 + n) with (n + 1) by lia.
  replace (0 + 1) with 1 by lia.
  change (Z.to_nat 1) with 1%nat.
  destruct (weightedPoolingInputIndex op (dimExprs (Z.to_nat n) 1)
              (dimExprs (Z.to_nat n) (n + 3))) as [ws|e]; cbn [bind].
  - now rewrite <- !app_assoc.
  - reflexivity.
Qed.

(** *** The single-input poolings *)

Lemma Pooling_iterator_types_ok (op : SingleInputPoolingBase_Op.t) :
  getRank (SingleInputPoolingBase_Op.output op) < UNSIGNED_MAX ->
  SingleInputPoolingBase_Op.iterator_types op
  = Ok (fillIterators (getRank (SingleInputPoolingBase_Op.output op)) parallel
        ++ fillIterators (getRank (SingleInputPoolingBase_Op.output op))
             window).
Proof.
  intros Hr.
  pose proof (getRank_nonneg (SingleInputPoolingBase_Op.output op)) as H0.
  unfold SingleInputPoolingBase_Op.iterator_types.
  change (getOutputShapedType op 0)
    with (SingleInputPoolingBase_Op.output op).
  rewrite to_unsigned_small by lia. reflexivity.
Qed.

Lemma Pooling_getNumParallelLoops (op : SingleInputPoolingBase_Op.t) :
  getRank (SingleInputPoolingBase_Op.output op) < UNSIGNED_MAX ->
  getNumParallelLoops op = Ok (getRank (SingleInputPoolingBase_Op.output op)).
Proof.
  intros Hr.
  pose proof (getRank_nonneg (SingleInputPoolingBase_Op.output op)) as H0.
  unfold getNumParallelLoops, iterator_types,
    SingleInputPoolingBase_Op.iterators.
  rewrite Pooling_iterator_types_ok by assumption. cbn [bind].
  unfold getParallelIteratorTypeName.
  rewrite getNumIterators_app, getNumIterators_same by lia.
  rewrite getNumIterators_other by reflexivity. f_equal. lia.
Qed.

Lemma Pooling_getNumWindowLoops (op : SingleInputPoolingBase_Op.t) :
  getRank (SingleInputPoolingBase_Op.output op) < UNSIGNED_MAX ->
  getNumWindowLoops op = Ok (getRank (SingleInputPoolingBase_Op.output op)).
Proof.
  intros Hr.
  pose proof (getRank_nonneg (SingleInputPoolingBase_Op.output op)) as H0.
  unfold getNumWindowLoops, iterator_types,
    SingleInputPoolingBase_Op.iterators.
  rewrite Pooling_iterator_types_ok by assumption. cbn [bind].
  unfold getWindowIteratorTypeName.
  rewrite getNumIterators_app, getNumIterators_other by reflexivity.
  rewrite getNumIterators_same by lia. reflexivity.
Qed.

Lemma Pooling_getNumLoops (op : SingleInputPoolingBase_Op.t) :
  getRank (SingleInputPoolingBase_Op.output op) < UNSIGNED_MAX ->
  getNumLoops op
  = Ok (2 * getRank (SingleInputPoolingBase_Op.output op)).
Proof.
  intros Hr.
  unfold getNumLoops, iterator_types, SingleInputPoolingBase_Op.iterators.
  rewrite Pooling_iterator_types_ok by assumption. cbn [bind].
  rewrite length_app, !length_fillIterators. f_equal.
  pose proof (getRank_nonneg (SingleInputPoolingBase_Op.output op)). lia.
Qed.

Lemma Pooling_indexing_maps_unfold (op : SingleInputPoolingBase_Op.t) :
  0 < getRank (SingleInputPoolingBase_Op.output op) ->
  2 * getRank (SingleInputPoolingBase_Op.output op) < UNSIGNED_MAX ->
  SingleInputPoolingBase_Op.indexing_maps op
  = (inputDims <- weightedPoolingInputIndex op
        (poolingOutput (getRank (SingleInputPoolingBase_Op.output op)))
        (poolingWindow (getRank (SingleInputPoolingBase_Op.output op))) ;;
     Ok [AffineMap_get (2 * getRank (SingleInputPoolingBase_Op.output op)) 0
           inputDims;
         AffineMap_get (2 * getRank (SingleInputPoolingBase_Op.output op)) 0
           (poolingWindow (getRank (SingleInputPoolingBase_Op.output op)));
         AffineMap_get (2 * getRank (SingleInputPoolingBase_Op.output op)) 0
           (poolingOutput (getRank (SingleInputPoolingBase_Op.output op)))]).
Proof.
  intros Hr Hb. unfold SingleInputPoolingBase_Op.indexing_maps.
  rewrite Pooling_getNumParallelLoops, Pooling_getNumWindowLoops by lia.
  cbn [bind].
  set (n := getRank (SingleInputPoolingBase_Op.output op)) in *.
  destruct (Z.gtb_spec n 0) as [_|Hle]; [|lia].
  rewrite (makeAffineDimExprs_small (num := n) (idx := 0)) by lia.
  rewrite (makeAffineDimExprs_small (num := n) (idx := 0 + n)) by lia.
  unfold poolingOutput, poolingWindow.
  replace (0 + n + n) with (2 * n) by lia.
  replace (0 + n) with n by lia.
  reflexivity.
Qed.

(** *** Composition with the identity *)

Lemma substDims_dimExprs (rs : list AffineExpr) (k start : nat) :
  (start + k <= length rs)%nat ->
  map (substDims rs) (dimExprs k (Z.of_nat start))
  = firstn k (skipn start rs).
Proof.
  revert start. induction k as [|k IH]; intros start Hk; simpl.
  - reflexivity.
  - rewrite Nat2Z.id.
    replace (Z.of_nat start + 1) with (Z.of_nat (S start)) by lia.
    rewrite IH by lia.
    destruct (skipn start rs) as [|r rest] eqn:Hskip.
    + exfalso. assert (Hl : length (skipn start rs) = 0%nat)
        by now rewrite Hskip.
      rewrite length_skipn in Hl. lia.
    + assert (Hnth : nth start rs (Dim (Z.of_nat start)) = r).
      { rewrite <- (firstn_skipn start rs) at 1.
        rewrite app_nth2 by (rewrite length_firstn; lia).
        rewrite length_firstn, Hskip.
        replace (start - Nat.min start (length rs))%nat with 0%nat by lia.
        reflexivity. }
      rewrite Hnth. f_equal.
      assert (Hrest : skipn (S start) rs = rest).
      { replace (S start) with (1 + start)%nat by lia.
        rewrite <- skipn_skipn, Hskip. reflexivity. }
      now rewrite Hrest.
Qed.

Lemma ConvOp_indexing_maps_rank_limit (op : ConvOp.t) :
  getRank (ConvOp.output op) <= 2 ->
  ConvOp.indexing_maps op = Err (AssertionFailed ConvRankLimit).
Proof.
  intros Hr.
  unfold ConvOp.indexing_maps, getNumWindowLoops, iterator_types,
    ConvOp.iterators.
  now rewrite ConvOp_iterator_types_rank_limit.
Qed.

(** *** Further facts on the poolings and on linalg.fill *)

Lemma Pooling_counts (op : SingleInputPoolingBase_Op.t) :
  getNumParallelLoops op
  = Ok (to_unsigned (getRank (SingleInputPoolingBase_Op.output op))) /\
  getNumWindowLoops op
  = Ok (to_unsigned (getRank (SingleInputPoolingBase_Op.output op))).
Proof.
  assert (H0 : 0 <= to_unsigned
                      (getRank (SingleInputPoolingBase_Op.output op))).
  { unfold to_unsigned. apply Z.mod_pos_bound. reflexivity. }
  unfold getNumParallelLoops, getNumWindowLoops, iterator_types,
    SingleInputPoolingBase_Op.iterators,
    SingleInputPoolingBase_Op.iterator_types.
  change (getOutputShapedType op 0)
    with (SingleInputPoolingBase_Op.output op).
  cbn [bind].
  unfold getParallelIteratorTypeName, getWindowIteratorTypeName.
  rewrite !getNumIterators_app, !getNumIterators_same by assumption.
  rewrite !getNumIterators_other by reflexivity.
  split; f_equal; lia.
Qed.

Lemma describeFill_ok (op : FillOp.t) :
  getRank (FillOp.output op) < UNSIGNED_MAX ->
  describeFill op
  = Ok {| Descriptor.kind := Fill;
          Descriptor.operands := [asOutput (FillOp.output op); asScalar];
          Descriptor.indexing_maps := [identity (getRank (FillOp.output op))];
          Descriptor.iterators :=
            repeat parallel (Z.to_nat (getRank (FillOp.output op)));
          Descriptor.library_call := None |}.
Proof.
  intros Hr. pose proof (getRank_nonneg (FillOp.output op)) as H0.
  unfold describeFill, describe, indexing_maps, FillOp.maps,
    FillOp.indexing_maps, getNumParallelLoops, iterator_types,
    FillOp.iterators, FillOp.iterator_types.
  change (getOutputShapedType op 0) with (FillOp.output op).
  rewrite to_unsigned_small by lia. cbn [bind].
  unfold getParallelIteratorTypeName.
  rewrite getNumIterators_same by lia. reflexivity.
Qed.

(** The constants of a weighted index are read from the attributes. *)
Lemma isWeightedIndex_reads {Op : Type} `{IteratorTypes Op}
      `{PoolingAttributes Op} (op : Op) (nWin : Z) (i : nat)
      (inIdx outIdx winIdx : AffineExpr) :
  getNumWindowLoops op = Ok nWin ->
  Z.of_nat i < nWin ->
  isWeightedIndex op i inIdx outIdx winIdx ->
  isWeightedBy (strides op) (dilations op) (padding op) i
               inIdx outIdx winIdx.
Proof.
  intros Hn Hi (s & d & p & Hs & Hd & Hp & Hev).
  rewrite (getStride_in_range op Hn) in Hs by assumption.
  rewrite (getDilation_in_range op Hn) in Hd by assumption.
  rewrite (getLowPad_in_range op Hn) in Hp by assumption.
  exists s, d, p. repeat split.
  - destruct (strides op) as [a|]; [|now inversion Hs].
    unfold getValue1 in Hs.
    destruct (nth_error a i); now inversion Hs.
  - destruct (dilations op) as [a|]; [|now inversion Hd].
    unfold getValue1 in Hd.
    destruct (nth_error a i); now inversion Hd.
  - destruct (padding op) as [rows|]; [|now inversion Hp].
    unfold getValue2 in Hp.
    destruct (nth_error rows i) as [row|]; [|discriminate].
    exists row. split; [reflexivity|].
    destruct (nth_error row 0); now inversion Hp.
  - exact Hev.
Qed.

(* ================================================================== *)
(** ** The properties of the specification *)

(** C1.  For every windowed operation (convolution and single-input pooling)
    and every spatial dimension [i], the input index derived for [i] is
    output_coord[i] * stride[i] + window_coord[i] * dilation[i] -
    low_pad[i], with stride[i], dilation[i] and low_pad[i] the entries of
    the operation's strides, dilations and padding attributes (1, 1 and 0
    for an absent attribute); in particular a convolution with strides
    [2,2], dilations [1,1] and zero padding reads its input, at output
    coordinate (x0, x1) and window coordinate (z0, z1), at
    (2*x0 + z0, 2*x1 + z1). *)
Theorem weighted_window_index_formula :
  (forall (op : ConvOp.t) (f inp o : AffineMap) (nWin : Z) (i : nat),
      ConvOp.indexing_maps op = Ok [f; inp; o] ->
      getNumWindowLoops op = Ok nWin ->
      Z.of_nat i < nWin ->
      isWeightedBy (ConvOp.strides op) (ConvOp.dilations op)
                   (ConvOp.padding op) i
                   (nth (1 + i) (results inp) anyExpr)
                   (nth (1 + i) (results o) anyExpr)
                   (nth i (results f) anyExpr)) /\
  (forall (op : SingleInputPoolingBase_Op.t) (inp w o : AffineMap)
          (nWin : Z) (i : nat),
      SingleInputPoolingBase_Op.indexing_maps op = Ok [inp; w; o] ->
      getNumWindowLoops op = Ok nWin ->
      Z.of_nat i < nWin ->
      isWeightedBy (SingleInputPoolingBase_Op.strides op)
                   (SingleInputPoolingBase_Op.dilations op)
                   (SingleInputPoolingBase_Op.padding op) i
                   (nth i (results inp) anyExpr)
                   (nth i (results o) anyExpr)
                   (nth i (results w) anyExpr)) /\
  (forall op : ConvOp.t,
      getRank (ConvOp.output op) = 4 ->
      ConvOp.strides op = Some [2; 2] ->
      ConvOp.dilations op = Some [1; 1] ->
      ConvOp.padding op = None
      \/ ConvOp.padding op = Some [[0; 0]; [0; 0]] ->
      exists f inp o,
        ConvOp.indexing_maps op = Ok [f; inp; o] /\
        forall point, exists b x0 x1 k q z0 z1,
          evalMap point o = [b; x0; x1; k] /\
          evalMap point f = [z0; z1; q; k] /\
          evalMap point inp = [b; 2 * x0 + z0; 2 * x1 + z1; q]).
Proof.
  split; [|split].
  - intros op f inp o nWin i Hmaps Hn Hi.
    unfold ConvOp.indexing_maps in Hmaps. rewrite Hn in Hmaps.
    cbn [bind] in Hmaps.
    destruct (nWin >? 0); [|discriminate].
    unfold makeAffineDimExprs, ConvOp.getNumBatchDimensions,
      ConvOp.getNumOutputFeatureDimensions,
      ConvOp.getNumInputFeatureDimensions in Hmaps.
    cbv beta iota zeta in Hmaps.
    change (Z.to_nat 1) with 1%nat in Hmaps.
    cbn [dimExprs] in Hmaps.
    match type of Hmaps with
    | context [weightedPoolingInputIndex op ?a ?b] =>
        set (xs := a) in *; set (zs := b) in *
    end.
    destruct (weightedPoolingInputIndex op xs zs) as [ws|e] eqn:Hws;
      [|discriminate].
    cbn [bind] in Hmaps. inversion Hmaps; subst f inp o; clear Hmaps.
    apply weightedFrom_ok in Hws as [Hlen Hnth].
    assert (Hxs : length xs = Z.to_nat nWin) by apply length_dimExprs.
    assert (Hzs : length zs = Z.to_nat nWin) by apply length_dimExprs.
    specialize (Hnth i). cbn [Nat.add] in Hnth.
    cbn [results]. unfold concat. cbn [app Nat.add nth].
    rewrite <- (app_assoc zs).
    rewrite !app_nth1 by lia.
    assert (Hlt : (i < length xs)%nat) by lia.
    exact (isWeightedIndex_reads Hn Hi (Hnth Hlt)).
  - intros op inp w o nWin i Hmaps Hn Hi.
    destruct (Pooling_counts op) as [HnPar HnWin].
    rewrite HnWin in Hn. inversion Hn as [Hu]. rewrite Hu in *. clear Hn.
    unfold SingleInputPoolingBase_Op.indexing_maps in Hmaps.
    rewrite HnPar, HnWin in Hmaps. cbn [bind] in Hmaps.
    destruct (nWin >? 0); [|discriminate].
    unfold makeAffineDimExprs in Hmaps.
    cbv beta iota zeta in Hmaps.
    match type of Hmaps with
    | context [weightedPoolingInputIndex op ?a ?b] =>
        set (xs := a) in *; set (zs := b) in *
    end.
    destruct (weightedPoolingInputIndex op xs zs) as [ws|e] eqn:Hws;
      [|discriminate].
    cbn [bind] in Hmaps. inversion Hmaps; subst inp w o; clear Hmaps.
    apply weightedFrom_ok in Hws as [Hlen Hnth].
    assert (Hxs : length xs = Z.to_nat nWin) by apply length_dimExprs.
    specialize (Hnth i). cbn [Nat.add] in Hnth.
    cbn [results].
    assert (Hlt : (i < length xs)%nat) by lia.
    exact (isWeightedIndex_reads HnWin Hi (Hnth Hlt)).
  - intros op Hrank Hstr Hdil Hpad.
    assert (Hr : 2 < getRank (ConvOp.output op) < UNSIGNED_MAX)
      by (rewrite Hrank; split; reflexivity).
    pose proof (ConvOp_getNumWindowLoops op Hr) as HnWin.
    rewrite ConvOp_indexing_maps_unfold
      by (rewrite Hrank; first [reflexivity | discriminate]).
    rewrite Hrank in *.
    unfold weightedPoolingInputIndex, convImage, convWindow, convBatch,
      convInFeature, convOutFeature.
    change (4 - 2) with 2 in *. change (Z.to_nat 2) with 2%nat.
    cbn [dimExprs weightedFrom].
    rewrite !(getStride_in_range op HnWin),
            !(getDilation_in_range op HnWin),
            !(getLowPad_in_range op HnWin) by (cbn; lia).
    change (@strides ConvOp.t ConvOp.attributes op) with (ConvOp.strides op).
    change (@dilations ConvOp.t ConvOp.attributes op)
      with (ConvOp.dilations op).
    change (@padding ConvOp.t ConvOp.attributes op) with (ConvOp.padding op).
    rewrite Hstr, Hdil.
    destruct Hpad as [Hpad|Hpad]; rewrite Hpad;
      cbn [getValue1 getValue2 nth_error bind];
      (eexists _, _, _; split; [reflexivity|]);
      intros point;
      exists (point 0), (point 1), (point 2), (point 3), (point 4),
             (point 5), (point 6);
      unfold evalMap, weightedExpr; cbn [map eval results app];
      (split; [reflexivity|]); (split; [reflexivity|]);
      change (2 + 3 + 1) with 6; change (2 + 3) with 5;
      change (1 + 1) with 2; change (2 + 2) with 4;
      repeat match goal with
             | |- _ :: _ = _ :: _ => apply f_equal2; [lia|]
             end; reflexivity.
Qed.

Lemma weighted_window_index_formula_witness :
  (exists f inp o,
      ConvOp.indexing_maps convDilated = Ok [f; inp; o] /\
      getNumWindowLoops convDilated = Ok 2 /\
      Z.of_nat 1 < 2 /\
      forall point,
        eval point (nth 2 (results inp) anyExpr)
        = eval point (nth 2 (results o) anyExpr) * 3
          + eval point (nth 1 (results f) anyExpr) * 2 - 4) /\
  (exists inp w o,
      SingleInputPoolingBase_Op.indexing_maps poolingDilated
      = Ok [inp; w; o] /\
      getNumWindowLoops poolingDilated = Ok 2 /\
      Z.of_nat 0 < 2 /\
      forall point,
        eval point (nth 0 (results inp) anyExpr)
        = eval point (nth 0 (results o) anyExpr) * 2
          + eval point (nth 0 (results w) anyExpr) * 3 - 1) /\
  (getRank (ConvOp.output conv2d) = 4 /\
   ConvOp.strides conv2d = Some [2; 2] /\
   ConvOp.dilations conv2d = Some [1; 1] /\
   ConvOp.padding conv2d = Some [[0; 0]; [0; 0]] /\
   exists f inp o,
     ConvOp.indexing_maps conv2d = Ok [f; inp; o] /\
     forall point, exists b x0 x1 k q z0 z1,
       evalMap point o = [b; x0; x1; k] /\
       evalMap point f = [z0; z1; q; k] /\
       evalMap point inp = [b; 2 * x0 + z0; 2 * x1 + z1; q]).
Proof.
  destruct weighted_window_index_formula as (Hconv & Hpool & Hex).
  split; [|split].
  - eexists _, _, _.
    assert (Hm : ConvOp.indexing_maps convDilated = Ok _ )
      by (vm_compute; reflexivity).
    assert (Hn : getNumWindowLoops convDilated = Ok 2) by reflexivity.
    assert (Hi : Z.of_nat 1 < 2) by reflexivity.
    split; [exact Hm|]. split; [exact Hn|]. split; [exact Hi|].
    destruct (Hconv convDilated _ _ _ 2 1%nat Hm Hn Hi)
      as (s & d & p & Hs & Hd & (row & Hrow & Hp) & Hev).
    cbn in Hs, Hd, Hrow.
    injection Hs as <-. injection Hd as <-. injection Hrow as <-.
    cbn in Hp. injection Hp as <-.
    exact Hev.
  - eexists _, _, _.
    assert (Hm : SingleInputPoolingBase_Op.indexing_maps poolingDilated
                 = Ok _) by (vm_compute; reflexivity).
    assert (Hn : getNumWindowLoops poolingDilated = Ok 2) by reflexivity.
    assert (Hi : Z.of_nat 0 < 2) by reflexivity.
    split; [exact Hm|]. split; [exact Hn|]. split; [exact Hi|].
    destruct (Hpool poolingDilated _ _ _ 2 0%nat Hm Hn Hi)
      as (s & d & p & Hs & Hd & (row & Hrow & Hp) & Hev).
    cbn in Hs, Hd, Hrow.
    injection Hs as <-. injection Hd as <-. injection Hrow as <-.
    cbn in Hp. injection Hp as <-.
    exact Hev.
  - split; [reflexivity|]. split; [reflexivity|]. split; [reflexivity|].
    split; [reflexivity|].
    exact (Hex conv2d eq_refl eq_refl eq_refl (or_intror eq_refl)).
Defined.




(** C3.  Verification rejects with OperandMapCountMismatch every descriptor
    whose number of indexing maps differs from its number of operands,
    whichever construction path (copy, fill, convolution, pooling, generic)
    produced it; in particular the descriptor of a fill, whose operands are
    the output and the scalar fill value and whose only indexing map is the
    identity on the output, is rejected so. *)
Theorem verify_operand_map_count :
  (forall d : Descriptor.t,
      length (Descriptor.indexing_maps d) <> length (Descriptor.operands d) ->
      verify d = Err OperandMapCountMismatch) /\
  (forall d : Descriptor.t,
      Constructed d ->
      length (Descriptor.indexing_maps d) <> length (Descriptor.operands d) ->
      verify d = Err OperandMapCountMismatch) /\
  (forall op : FillOp.t,
      getRank (FillOp.output op) < UNSIGNED_MAX ->
      exists d,
        describeFill op = Ok d /\
        Descriptor.operands d = [asOutput (FillOp.output op); asScalar] /\
        Descriptor.indexing_maps d
        = [identity (getRank (FillOp.output op))] /\
        verify d = Err OperandMapCountMismatch).
Proof.
  assert (Hgen : forall d : Descriptor.t,
             length (Descriptor.indexing_maps d)
             <> length (Descriptor.operands d) ->
             verify d = Err OperandMapCountMismatch).
  { intros d Hne. unfold verify.
    destruct (Nat.eqb_spec (length (Descriptor.indexing_maps d))
                           (length (Descriptor.operands d))) as [Heq|_];
      [contradiction|reflexivity]. }
  split; [exact Hgen|].
  split; [intros d _; apply Hgen|].
  intros op Hr. eexists. split; [now apply describeFill_ok|].
  split; [reflexivity|]. split; [reflexivity|].
  apply Hgen. cbn [Descriptor.indexing_maps Descriptor.operands length].
  discriminate.
Qed.

Lemma verify_operand_map_count_witness :
  (Constructed (describeGeneric genericExtraMap) /\
   length (Descriptor.indexing_maps (describeGeneric genericExtraMap))
   <> length (Descriptor.operands (describeGeneric genericExtraMap)) /\
   verify (describeGeneric genericExtraMap) = Err OperandMapCountMismatch) /\
  (getRank (FillOp.output fill2d) < UNSIGNED_MAX /\
   exists d,
     describeFill fill2d = Ok d /\
     length (Descriptor.indexing_maps d) <> length (Descriptor.operands d) /\
     verify d = Err OperandMapCountMismatch).
Proof.
  destruct verify_operand_map_count as (Hany & Hpath & Hfill).
  split.
  - assert (Hc : Constructed (describeGeneric genericExtraMap))
      by apply ByGeneric.
    assert (Hne : length (Descriptor.indexing_maps
                            (describeGeneric genericExtraMap))
                  <> length (Descriptor.operands
                               (describeGeneric genericExtraMap)))
      by (vm_compute; discriminate).
    split; [exact Hc|]. split; [exact Hne|].
    exact (Hpath _ Hc Hne).
  - assert (Hr : getRank (FillOp.output fill2d) < UNSIGNED_MAX)
      by reflexivity.
    split; [exact Hr|].
    destruct (Hfill fill2d Hr) as (d & Hd & Hops & Hmaps & Hv).
    exists d. split; [exact Hd|].
    assert (Hne : length (Descriptor.indexing_maps d)
                  <> length (Descriptor.operands d))
      by (rewrite Hops, Hmaps; discriminate).
    split; [exact Hne|].
    exact (Hany d Hne).
Defined.

(** C4.  The iterator classification of a convolution is the concatenation
    of parallel x (batch + spatial + output-feature dimensions), reduction x
    (input-feature count) and window x (window count); the batch,
    input-feature and output-feature counts are 1, so it is parallel x
    output rank, reduction x 1, window x (output rank - 2).  A convolution
    has a classification exactly when its output rank exceeds 2. *)
Theorem ConvOp_iterator_classification (op : ConvOp.t) :
  getRank (ConvOp.output op) < UNSIGNED_MAX ->
  ConvOp.getNumBatchDimensions op = 1 /\
  ConvOp.getNumInputFeatureDimensions op = 1 /\
  ConvOp.getNumOutputFeatureDimensions op = 1 /\
  (forall its,
      ConvOp.iterator_types op = Ok its ->
      its = repeat parallel
              (Z.to_nat (ConvOp.getNumBatchDimensions op
                         + ConvOp.getNumSpatialDimensions op
                         + ConvOp.getNumOutputFeatureDimensions op))
            ++ repeat reduction
                 (Z.to_nat (ConvOp.getNumInputFeatureDimensions op))
            ++ repeat window
                 (Z.to_nat (getRank (ConvOp.output op)
                            - ConvOp.getNumBatchDimensions op
                            - ConvOp.getNumInputFeatureDimensions op)) /\
      its = repeat parallel (Z.to_nat (getRank (ConvOp.output op)))
            ++ repeat reduction 1
            ++ repeat window (Z.to_nat (getRank (ConvOp.output op) - 2))) /\
  (2 < getRank (ConvOp.output op) ->
   exists its, ConvOp.iterator_types op = Ok its).
Proof.
  intros Hmax.
  repeat (split; [reflexivity|]).
  split.
  - intros its Hits.
    destruct (Z_le_gt_dec (getRank (ConvOp.output op)) 2) as [Hle|Hgt].
    { rewrite ConvOp_iterator_types_rank_limit in Hits by assumption.
      discriminate. }
    assert (Hsp : ConvOp.getNumSpatialDimensions op
                  = getRank (ConvOp.output op) - 2).
    { unfold ConvOp.getNumSpatialDimensions.
      rewrite ConvOp_output_type.
      unfold ConvOp.getNumBatchDimensions,
        ConvOp.getNumOutputFeatureDimensions.
      rewrite to_unsigned_small by lia. lia. }
    rewrite ConvOp_iterator_types_ok in Hits by lia.
    inversion Hits; subst its; clear Hits.
    rewrite Hsp.
    unfold ConvOp.getNumBatchDimensions, ConvOp.getNumInputFeatureDimensions,
      ConvOp.getNumOutputFeatureDimensions, fillIterators.
    replace (1 + (getRank (ConvOp.output op) - 2) + 1)
      with (getRank (ConvOp.output op)) by lia.
    replace (getRank (ConvOp.output op) - 1 - 1)
      with (getRank (ConvOp.output op) - 2) by lia.
    change (Z.to_nat 1) with 1%nat.
    split; reflexivity.
  - intros Hgt. eexists. apply ConvOp_iterator_types_ok. lia.
Qed.

Lemma ConvOp_iterator_classification_witness :
  getRank (ConvOp.output conv2d) < UNSIGNED_MAX /\
  2 < getRank (ConvOp.output conv2d) /\
  ConvOp.iterator_types conv2d
  = Ok [parallel; parallel; parallel; parallel; reduction; window; window] /\
  [parallel; parallel; parallel; parallel; reduction; window; window]
  = repeat parallel (Z.to_nat (getRank (ConvOp.output conv2d)))
    ++ repeat reduction 1
    ++ repeat window (Z.to_nat (getRank (ConvOp.output conv2d) - 2)).
Proof.
  assert (Hmax : getRank (ConvOp.output conv2d) < UNSIGNED_MAX)
    by reflexivity.
  assert (Hr : 2 < getRank (ConvOp.output conv2d)) by reflexivity.
  assert (Hits : ConvOp.iterator_types conv2d
                 = Ok [parallel; parallel; parallel; parallel; reduction;
                       window; window]) by reflexivity.
  destruct (ConvOp_iterator_classification conv2d Hmax)
    as (_ & _ & _ & Hall & _).
  split; [exact Hmax|]. split; [exact Hr|]. split; [exact Hits|].
  exact (proj2 (Hall _ Hits)).
Defined.

(** C5.  The indexing maps of a convolution are exactly three, in operand
    order filter, input, output, over the iteration space allocated in the
    order batch, image, output feature, input feature, window: the filter
    map yields (window dims, input-feature dim, output-feature dim), the
    input map (batch dim, weighted window expressions, input-feature dim),
    the output map (batch dim, image dims, output-feature dim); the three
    maps have the same domain rank, the length of the iterator
    classification.  The maps are produced whenever the output rank exceeds
    2 and the optional attributes cover the window dimensions. *)
Theorem ConvOp_indexing_maps_layout (op : ConvOp.t) :
  2 * getRank (ConvOp.output op) <= UNSIGNED_MAX ->
  let n := getRank (ConvOp.output op) - 2 in
  (forall ms,
      ConvOp.indexing_maps op = Ok ms ->
      exists ws loops,
        weightedPoolingInputIndex op (convImage n) (convWindow n) = Ok ws /\
        length ws = Z.to_nat n /\
        getNumLoops op = Ok loops /\
        ms = [AffineMap_get loops 0
                (convWindow n ++ convInFeature n ++ convOutFeature n);
              AffineMap_get loops 0 (convBatch ++ ws ++ convInFeature n);
              AffineMap_get loops 0
                (convBatch ++ convImage n ++ convOutFeature n)]) /\
  (2 < getRank (ConvOp.output op) ->
   attributesCover op (Z.to_nat n) = true ->
   exists ms, ConvOp.indexing_maps op = Ok ms).
Proof.
  intros Hb n.
  pose proof (getRank_nonneg (ConvOp.output op)) as H0.
  split.
  - intros ms Hms.
    destruct (Z_le_gt_dec (getRank (ConvOp.output op)) 2) as [Hle|Hgt].
    { rewrite ConvOp_indexing_maps_rank_limit in Hms by assumption.
      discriminate. }
    assert (Hr : 2 < getRank (ConvOp.output op) < UNSIGNED_MAX) by lia.
    rewrite ConvOp_indexing_maps_unfold in Hms by lia. fold n in Hms.
    destruct (weightedPoolingInputIndex op (convImage n) (convWindow n))
      as [ws|e] eqn:Hws; [|discriminate].
    cbn [bind] in Hms. inversion Hms; subst ms; clear Hms.
    exists ws, (2 * getRank (ConvOp.output op) - 1).
    split; [reflexivity|].
    split.
    + unfold weightedPoolingInputIndex, convImage in Hws.
      apply weightedFrom_ok in Hws.
      destruct Hws as [Hlen _]. now rewrite Hlen, length_dimExprs.
    + split; [now apply ConvOp_getNumLoops|reflexivity].
  - intros Hgt Hcov.
    assert (Hr : 2 < getRank (ConvOp.output op) < UNSIGNED_MAX) by lia.
    pose proof (ConvOp_getNumWindowLoops op Hr) as HnWin. fold n in HnWin.
    rewrite ConvOp_indexing_maps_unfold by lia. fold n.
    destruct (@weightedFrom_returns _ _ _ op n HnWin
                (convImage n) (convWindow n) 0%nat) as [ws Hws].
    + unfold convImage. rewrite length_dimExprs. lia.
    + unfold convImage, convWindow. rewrite !length_dimExprs. lia.
    + unfold convImage. now rewrite length_dimExprs.
    + unfold weightedPoolingInputIndex. rewrite Hws. cbn [bind].
      eexists. reflexivity.
Qed.

Lemma ConvOp_indexing_maps_layout_witness :
  2 * getRank (ConvOp.output conv2d) <= UNSIGNED_MAX /\
  2 < getRank (ConvOp.output conv2d) /\
  attributesCover conv2d (Z.to_nat (getRank (ConvOp.output conv2d) - 2))
  = true /\
  exists ms ws loops,
    ConvOp.indexing_maps conv2d = Ok ms /\
    getNumLoops conv2d = Ok loops /\
    ms = [AffineMap_get loops 0
            (convWindow 2 ++ convInFeature 2 ++ convOutFeature 2);
          AffineMap_get loops 0 (convBatch ++ ws ++ convInFeature 2);
          AffineMap_get loops 0
            (convBatch ++ convImage 2 ++ convOutFeature 2)].
Proof.
  assert (Hb : 2 * getRank (ConvOp.output conv2d) <= UNSIGNED_MAX)
    by (vm_compute; discriminate).
  assert (Hr : 2 < getRank (ConvOp.output conv2d)) by reflexivity.
  assert (Hc : attributesCover conv2d
                 (Z.to_nat (getRank (ConvOp.output conv2d) - 2)) = true)
    by reflexivity.
  split; [exact Hb|]. split; [exact Hr|]. split; [exact Hc|].
  destruct (ConvOp_indexing_maps_layout conv2d Hb) as [Hshape Hret].
  destruct (Hret Hr Hc) as [ms Hms].
  destruct (Hshape ms Hms) as (ws & loops & _ & _ & Hloops & Heq).
  exists ms, ws, loops.
  split; [exact Hms|]. split; [exact Hloops|]. exact Heq.
Defined.

(** C6.  For a single-input pooling (pooling_max, pooling_min, pooling_sum)
    the iterator classification is parallel x output rank followed by
    window x output rank, the window-loop count being the output dimension
    count, and the indexing maps are three, in the order input, windowDims,
    output: the input map is the weighted index of the output dimensions
    and the window dimensions, the windowDims map selects the window
    dimensions and the output map the output dimensions.  The maps are
    produced whenever there is a window dimension and the optional
    attributes cover the window dimensions. *)
Theorem Pooling_iterators_and_maps (op : SingleInputPoolingBase_Op.t) :
  let n := getRank (SingleInputPoolingBase_Op.output op) in
  n < UNSIGNED_MAX ->
  SingleInputPoolingBase_Op.iterator_types op
  = Ok (repeat parallel (Z.to_nat n) ++ repeat window (Z.to_nat n)) /\
  getNumParallelLoops op = Ok n /\
  getNumWindowLoops op = Ok n /\
  (2 * n < UNSIGNED_MAX ->
   (forall ms,
       SingleInputPoolingBase_Op.indexing_maps op = Ok ms ->
       exists inputDims loops,
         weightedPoolingInputIndex op (poolingOutput n) (poolingWindow n)
         = Ok inputDims /\
         getNumLoops op = Ok loops /\
         ms = [AffineMap_get loops 0 inputDims;
               AffineMap_get loops 0 (poolingWindow n);
               AffineMap_get loops 0 (poolingOutput n)]) /\
   (0 < n ->
    attributesCover op (Z.to_nat n) = true ->
    exists ms, SingleInputPoolingBase_Op.indexing_maps op = Ok ms)).
Proof.
  intros n Hr.
  pose proof (getRank_nonneg (SingleInputPoolingBase_Op.output op)) as H0.
  fold n in H0.
  pose proof (Pooling_getNumWindowLoops op Hr) as HnWin. fold n in HnWin.
  split; [now apply Pooling_iterator_types_ok|].
  split; [now apply Pooling_getNumParallelLoops|].
  split; [exact HnWin|].
  intros Hb. split.
  - intros ms Hms.
    destruct (Z_le_gt_dec n 0) as [Hle|Hpos].
    { unfold SingleInputPoolingBase_Op.indexing_maps in Hms.
      rewrite Pooling_getNumParallelLoops, HnWin in Hms by assumption.
      cbn [bind] in Hms.
      destruct (Z.gtb_spec n 0) as [Hgt|_]; [lia|discriminate]. }
    rewrite Pooling_indexing_maps_unfold in Hms by (fold n; lia).
    fold n in Hms.
    destruct (weightedPoolingInputIndex op (poolingOutput n)
                (poolingWindow n)) as [inputDims|e] eqn:Hws; [|discriminate].
    cbn [bind] in Hms. inversion Hms; subst ms; clear Hms.
    exists inputDims, (2 * n).
    split; [reflexivity|].
    split; [now apply Pooling_getNumLoops|reflexivity].
  - intros Hpos Hcov.
    rewrite Pooling_indexing_maps_unfold by (fold n; lia). fold n.
    destruct (@weightedFrom_returns _ _ _ op n HnWin
                (poolingOutput n) (poolingWindow n) 0%nat) as [ws Hws].
    + unfold poolingOutput. rewrite length_dimExprs. lia.
    + unfold poolingOutput, poolingWindow. rewrite !length_dimExprs. lia.
    + unfold poolingOutput. now rewrite length_dimExprs.
    + unfold weightedPoolingInputIndex. rewrite Hws. cbn [bind].
      eexists. reflexivity.
Qed.

Lemma Pooling_iterators_and_maps_witness :
  getRank (SingleInputPoolingBase_Op.output poolingMax4x4) < UNSIGNED_MAX /\
  2 * getRank (SingleInputPoolingBase_Op.output poolingMax4x4)
  < UNSIGNED_MAX /\
  0 < getRank (SingleInputPoolingBase_Op.output poolingMax4x4) /\
  attributesCover poolingMax4x4 2 = true /\
  SingleInputPoolingBase_Op.iterator_types poolingMax4x4
  = Ok [parallel; parallel; window; window] /\
  exists ms inputDims loops,
    SingleInputPoolingBase_Op.indexing_maps poolingMax4x4 = Ok ms /\
    ms = [AffineMap_get loops 0 inputDims;
          AffineMap_get loops 0 (poolingWindow 2);
          AffineMap_get loops 0 (poolingOutput 2)].
Proof.
  assert (Hr : getRank (SingleInputPoolingBase_Op.output poolingMax4x4)
               < UNSIGNED_MAX) by reflexivity.
  assert (Hb : 2 * getRank (SingleInputPoolingBase_Op.output poolingMax4x4)
               < UNSIGNED_MAX) by reflexivity.
  assert (Hp : 0 < getRank (SingleInputPoolingBase_Op.output poolingMax4x4))
    by reflexivity.
  assert (Hc : attributesCover poolingMax4x4 2 = true) by reflexivity.
  destruct (Pooling_iterators_and_maps poolingMax4x4 Hr)
    as (Hits & _ & _ & Hmaps).
  destruct (Hmaps Hb) as [Hshape Hret].
  destruct (Hret Hp Hc) as [ms Hms].
  destruct (Hshape ms Hms) as (inputDims & loops & _ & _ & Heq).
  split; [exact Hr|]. split; [exact Hb|]. split; [exact Hp|].
  split; [exact Hc|]. split; [exact Hits|].
  exists ms, inputDims, loops. split; [exact Hms|exact Heq].
Defined.

(** C7.  For every windowed operation and every window dimension [i]:
    without a strides attribute getStride(i) is 1, without a dilations
    attribute getDilation(i) is 1, and without a padding attribute
    getLowPad(i) and getHighPad(i) are both 0. *)
Theorem pooling_attribute_defaults
        {Op : Type} `{IteratorTypes Op} `{PoolingAttributes Op}
        (op : Op) (nWin i : Z) :
  getNumWindowLoops op = Ok nWin ->
  0 <= i < nWin ->
  (strides op = None -> getStride op i = Ok 1) /\
  (dilations op = None -> getDilation op i = Ok 1) /\
  (padding op = None -> getLowPad op i = Ok 0 /\ getHighPad op i = Ok 0).
Proof.
  intros Hn Hi.
  assert (Hlt : (i <? nWin) = true) by (apply Z.ltb_lt; lia).
  unfold getStride, getDilation, getLowPad, getHighPad.
  rewrite Hn. cbn [bind]. rewrite Hlt.
  split; [|split].
  - intros ->. reflexivity.
  - intros ->. reflexivity.
  - intros ->. split; reflexivity.
Qed.

Lemma pooling_attribute_defaults_witness :
  getNumWindowLoops conv2dPlain = Ok 2 /\
  0 <= 1 < 2 /\
  ConvOp.strides conv2dPlain = None /\
  ConvOp.dilations conv2dPlain = None /\
  ConvOp.padding conv2dPlain = None /\
  getStride conv2dPlain 1 = Ok 1 /\
  getDilation conv2dPlain 1 = Ok 1 /\
  getLowPad conv2dPlain 1 = Ok 0 /\
  getHighPad conv2dPlain 1 = Ok 0.
Proof.
  assert (Hn : getNumWindowLoops conv2dPlain = Ok 2) by reflexivity.
  assert (Hi : 0 <= 1 < 2) by lia.
  destruct (pooling_attribute_defaults conv2dPlain Hn Hi) as (Hs & Hd & Hp).
  destruct (Hp eq_refl) as [Hlo Hhi].
  exact (conj Hn (conj Hi (conj eq_refl (conj eq_refl (conj eq_refl
           (conj (Hs eq_refl) (conj (Hd eq_refl) (conj Hlo Hhi)))))))).
Defined.

(** C8.  For a copy whose input and output have equal rank, each side's
    indexing map is the identity map of that rank when the side has no
    permutation attribute and the supplied permutation map otherwise, and
    the iterator classification is all parallel, of length the operand
    rank. *)
Theorem CopyOp_maps_and_iterators (op : CopyOp.t) :
  getRank (CopyOp.input op) = getRank (CopyOp.output op) ->
  getRank (CopyOp.input op) < UNSIGNED_MAX ->
  CopyOp.indexing_maps op
  = Ok [match CopyOp.inputPermutation op with
        | Some m => m
        | None => identity (getRank (CopyOp.input op))
        end;
        match CopyOp.outputPermutation op with
        | Some m => m
        | None => identity (getRank (CopyOp.output op))
        end] /\
  (exists its,
      CopyOp.iterator_types op = Ok its /\
      its = repeat parallel (Z.to_nat (getRank (CopyOp.input op))) /\
      Z.of_nat (length its) = getRank (CopyOp.input op)).
Proof.
  intros Heq Hr.
  pose proof (getRank_nonneg (CopyOp.input op)) as H0.
  unfold CopyOp.indexing_maps, CopyOp.iterator_types.
  change (getInputShapedType op 0) with (CopyOp.input op).
  change (getOutputShapedType op 0) with (CopyOp.output op).
  rewrite <- Heq.
  rewrite to_unsigned_small by lia.
  split.
  - reflexivity.
  - eexists. split; [reflexivity|]. split; [reflexivity|].
    rewrite length_fillIterators. lia.
Qed.

Lemma CopyOp_maps_and_iterators_witness :
  getRank (CopyOp.input copy3d) = getRank (CopyOp.output copy3d) /\
  getRank (CopyOp.input copy3d) < UNSIGNED_MAX /\
  CopyOp.indexing_maps copy3d
  = Ok [AffineMap_get 3 0 [Dim 0; Dim 2; Dim 1];
        AffineMap_get 3 0 [Dim 0; Dim 1; Dim 2]].
Proof.
  assert (Heq : getRank (CopyOp.input copy3d)
                = getRank (CopyOp.output copy3d)) by reflexivity.
  assert (Hr : getRank (CopyOp.input copy3d) < UNSIGNED_MAX) by reflexivity.
  split; [exact Heq|]. split; [exact Hr|].
  exact (proj1 (CopyOp_maps_and_iterators copy3d Heq Hr)).
Defined.

(** C9.  For every rank [r] and every permutation map [P] over [0, r),
    composing the rank-[r] identity map with [P] yields [P]:
    compose(identity(r), P) = P. *)
Theorem compose_identity_permutation (r : Z) (perm : list Z) (P : AffineMap) :
  Z.of_nat (length perm) = r ->
  permutation perm = Ok P ->
  compose (identity r) P = Ok P.
Proof.
  intros Hlen HP. unfold permutation in HP.
  destruct (is_bijection perm); [|discriminate].
  inversion HP; subst P; clear HP.
  unfold compose, identity. cbn [numDims numSymbols results].
  rewrite length_map, Hlen, Z.eqb_refl.
  rewrite <- Hlen, Nat2Z.id.
  change 0 with (Z.of_nat 0).
  rewrite substDims_dimExprs by (rewrite length_map; lia).
  cbn [skipn].
  rewrite <- (length_map Dim perm) at 2.
  rewrite firstn_all. reflexivity.
Qed.

Lemma compose_identity_permutation_witness :
  Z.of_nat (length [2; 0; 1]) = 3 /\
  permutation [2; 0; 1] = Ok (AffineMap_get 3 0 [Dim 2; Dim 0; Dim 1]) /\
  compose (identity 3) (AffineMap_get 3 0 [Dim 2; Dim 0; Dim 1])
  = Ok (AffineMap_get 3 0 [Dim 2; Dim 0; Dim 1]).
Proof.
  assert (Hl : Z.of_nat (length [2; 0; 1]) = 3) by reflexivity.
  assert (Hp : permutation [2; 0; 1]
               = Ok (AffineMap_get 3 0 [Dim 2; Dim 0; Dim 1]))
    by reflexivity.
  split; [exact Hl|]. split; [exact Hp|].
  exact (compose_identity_permutation [2; 0; 1] Hl Hp).
Defined.

(** C10.  getLibraryCallName of a generic or indexed generic operation is
    total: it is the stored library_call string when the attribute is set
    and the fixed string "op_has_no_registered_library_name" otherwise. *)
Theorem getLibraryCallName_total (op : GenericOpBase.t) :
  (forall name, GenericOpBase.library_call op = Some name ->
                GenericOpBase.getLibraryCallName op = name) /\
  (GenericOpBase.library_call op = None ->
   GenericOpBase.getLibraryCallName op
   = "op_has_no_registered_library_name"%string).
Proof.
  unfold GenericOpBase.getLibraryCallName. split.
  - intros name ->. reflexivity.
  - intros ->. reflexivity.
Qed.

Lemma getLibraryCallName_total_witness :
  (GenericOpBase.library_call matmulGeneric = Some "linalg_matmul"%string /\
   GenericOpBase.getLibraryCallName matmulGeneric = "linalg_matmul"%string) /\
  (GenericOpBase.library_call indexedPlain = None /\
   GenericOpBase.getLibraryCallName indexedPlain
   = "op_has_no_registered_library_name"%string).
Proof.
  split.
  - split; [reflexivity|].
    exact (proj1 (getLibraryCallName_total matmulGeneric) _ eq_refl).
  - split; [reflexivity|].
    exact (proj2 (getLibraryCallName_total indexedPlain) eq_refl).
Defined.

(* ================================================================== *)
(** ** Further properties of the code *)

(** *** neon-truncate-min-max.ll *)

Lemma lane_t0_saturates (x : Z) :
  0 <= x < 2 ^ 16 ->
  0 <= NeonTruncateMinMax.lane_t0 x < 2 ^ 8 /\
  NeonTruncateMinMax.signed 8 (NeonTruncateMinMax.lane_t0 x)
  = NeonTruncateMinMax.ssat 8 (NeonTruncateMinMax.signed 16 x).
Proof.
  intros Hx.
  unfold NeonTruncateMinMax.lane_t0, NeonTruncateMinMax.select,
    NeonTruncateMinMax.icmp_slt, NeonTruncateMinMax.icmp_sgt.
  change (NeonTruncateMinMax.signed 16 (NeonTruncateMinMax.iN 16 127))
    with 127.
  change (NeonTruncateMinMax.signed 16 (NeonTruncateMinMax.iN 16 (-128)))
    with (-128).
  change (NeonTruncateMinMax.iN 16 127) with 127.
  change (NeonTruncateMinMax.iN 16 (-128)) with 65408.
  unfold NeonTruncateMinMax.trunc, NeonTruncateMinMax.signed,
    NeonTruncateMinMax.ssat.
  change (2 ^ 16) with 65536 in *. change (2 ^ (16 - 1)) with 32768.
  change (2 ^ 8) with 256. change (2 ^ (8 - 1)) with 128.
  repeat match goal with
         | |- context [?a <? ?b] => destruct (Z.ltb_spec a b)
         | |- context [?a >? ?b] => destruct (Z.gtb_spec a b)
         end; Z.div_mod_to_equations; lia.
Qed.

Lemma lane_t1_saturates (x : Z) :
  0 <= x < 2 ^ 32 ->
  0 <= NeonTruncateMinMax.lane_t1 x < 2 ^ 16 /\
  NeonTruncateMinMax.signed 16 (NeonTruncateMinMax.lane_t1 x)
  = NeonTruncateMinMax.ssat 16 (NeonTruncateMinMax.signed 32 x).
Proof.
  intros Hx.
  unfold NeonTruncateMinMax.lane_t1, NeonTruncateMinMax.select,
    NeonTruncateMinMax.icmp_slt, NeonTruncateMinMax.icmp_sgt.
  change (NeonTruncateMinMax.signed 32 (NeonTruncateMinMax.iN 32 32767))
    with 32767.
  change (NeonTruncateMinMax.signed 32 (NeonTruncateMinMax.iN 32 (-32768)))
    with (-32768).
  change (NeonTruncateMinMax.iN 32 32767) with 32767.
  change (NeonTruncateMinMax.iN 32 (-32768)) with 4294934528.
  unfold NeonTruncateMinMax.trunc, NeonTruncateMinMax.signed,
    NeonTruncateMinMax.ssat.
  change (2 ^ 32) with 4294967296 in *.
  change (2 ^ (32 - 1)) with 2147483648.
  change (2 ^ 16) with 65536. change (2 ^ (16 - 1)) with 32768.
  repeat match goal with
         | |- context [?a <? ?b] => destruct (Z.ltb_spec a b)
         | |- context [?a >? ?b] => destruct (Z.gtb_spec a b)
         end; Z.div_mod_to_equations; lia.
Qed.

Lemma lane_t2_saturates (x : Z) :
  0 <= x < 2 ^ 16 ->
  0 <= NeonTruncateMinMax.lane_t2 x < 2 ^ 8 /\
  NeonTruncateMinMax.lane_t2 x = NeonTruncateMinMax.usat 8 x.
Proof.
  intros Hx.
  unfold NeonTruncateMinMax.lane_t2, NeonTruncateMinMax.select,
    NeonTruncateMinMax.icmp_ult.
  change (NeonTruncateMinMax.iN 16 255) with 255.
  unfold NeonTruncateMinMax.trunc, NeonTruncateMinMax.usat.
  change (2 ^ 16) with 65536 in *. change (2 ^ 8) with 256.
  destruct (Z.ltb_spec x 255); Z.div_mod_to_equations; lia.
Qed.

Lemma lane_t3_saturates (x : Z) :
  0 <= x < 2 ^ 32 ->
  0 <= NeonTruncateMinMax.lane_t3 x < 2 ^ 16 /\
  NeonTruncateMinMax.lane_t3 x = NeonTruncateMinMax.usat 16 x.
Proof.
  intros Hx.
  unfold NeonTruncateMinMax.lane_t3, NeonTruncateMinMax.select,
    NeonTruncateMinMax.icmp_ult.
  change (NeonTruncateMinMax.iN 32 65535) with 65535.
  unfold NeonTruncateMinMax.trunc, NeonTruncateMinMax.usat.
  change (2 ^ 32) with 4294967296 in *. change (2 ^ 16) with 65536.
  destruct (Z.ltb_spec x 65535); Z.div_mod_to_equations; lia.
Qed.

Lemma t0_by_lane (v : list Z) :
  length v = 8%nat ->
  NeonTruncateMinMax.t0 v = map NeonTruncateMinMax.lane_t0 v.
Proof.
  intros Hlen.
  do 8 (destruct v as [|? v]; [discriminate|]).
  destruct v; [|discriminate].
  cbv [NeonTruncateMinMax.t0 NeonTruncateMinMax.vicmp
       NeonTruncateMinMax.vselect NeonTruncateMinMax.vtrunc
       NeonTruncateMinMax.splat repeat map NeonTruncateMinMax.lane_t0].
  reflexivity.
Qed.

Lemma t1_by_lane (v : list Z) :
  length v = 4%nat ->
  NeonTruncateMinMax.t1 v = map NeonTruncateMinMax.lane_t1 v.
Proof.
  intros Hlen.
  do 4 (destruct v as [|? v]; [discriminate|]).
  destruct v; [|discriminate].
  cbv [NeonTruncateMinMax.t1 NeonTruncateMinMax.vicmp
       NeonTruncateMinMax.vselect NeonTruncateMinMax.vtrunc
       NeonTruncateMinMax.splat repeat map NeonTruncateMinMax.lane_t1].
  reflexivity.
Qed.

Lemma t2_by_lane (v : list Z) :
  length v = 8%nat ->
  NeonTruncateMinMax.t2 v = map NeonTruncateMinMax.lane_t2 v.
Proof.
  intros Hlen.
  do 8 (destruct v as [|? v]; [discriminate|]).
  destruct v; [|discriminate].
  cbv [NeonTruncateMinMax.t2 NeonTruncateMinMax.vicmp
       NeonTruncateMinMax.vselect NeonTruncateMinMax.vtrunc
       NeonTruncateMinMax.splat repeat map NeonTruncateMinMax.lane_t2].
  reflexivity.
Qed.

Lemma t3_by_lane (v : list Z) :
  length v = 4%nat ->
  NeonTruncateMinMax.t3 v = map NeonTruncateMinMax.lane_t3 v.
Proof.
  intros Hlen.
  do 4 (destruct v as [|? v]; [discriminate|]).
  destruct v; [|discriminate].
  cbv [NeonTruncateMinMax.t3 NeonTruncateMinMax.vicmp
       NeonTruncateMinMax.vselect NeonTruncateMinMax.vtrunc
       NeonTruncateMinMax.splat repeat map NeonTruncateMinMax.lane_t3].
  reflexivity.
Qed.

(** From lanes to vectors: a lane function that keeps its results in range
    and computes [g] under the reading [rd] does so on every lane. *)
Lemma lanes_of_vector (f g rd : Z -> Z) (lanes : nat) (wide narrow : Z)
      (v : list Z) :
  (forall x, 0 <= x < 2 ^ wide ->
             0 <= f x < 2 ^ narrow /\ rd (f x) = g x) ->
  NeonTruncateMinMax.isVector lanes wide v ->
  NeonTruncateMinMax.isVector lanes narrow (map f v) /\
  map rd (map f v) = map g v.
Proof.
  intros Hf [Hlen Hall]. split; [split|].
  - now rewrite length_map.
  - apply Forall_map. eapply Forall_impl; [|exact Hall].
    intros x Hx. now apply Hf.
  - rewrite map_map. apply map_ext_Forall.
    eapply Forall_impl; [|exact Hall].
    intros x Hx. now apply Hf.
Qed.

(** X1.  In [t0] and in [t1] the truncation loses nothing: read as signed
    integers, the lanes of the result are the lanes of the input saturated
    to the signed range of the narrow type, i.e. [-128, 127] for [t0] and
    [-32768, 32767] for [t1] -- the lane-wise value of a signed saturating
    narrowing move.  The result is a vector of the narrow type with the
    lanes of the input. *)
Theorem neon_signed_truncate_min_max :
  (forall v,
      NeonTruncateMinMax.isVector 8 16 v ->
      NeonTruncateMinMax.isVector 8 8 (NeonTruncateMinMax.t0 v) /\
      map (NeonTruncateMinMax.signed 8) (NeonTruncateMinMax.t0 v)
      = map (fun x => NeonTruncateMinMax.ssat 8
                        (NeonTruncateMinMax.signed 16 x)) v) /\
  (forall v,
      NeonTruncateMinMax.isVector 4 32 v ->
      NeonTruncateMinMax.isVector 4 16 (NeonTruncateMinMax.t1 v) /\
      map (NeonTruncateMinMax.signed 16) (NeonTruncateMinMax.t1 v)
      = map (fun x => NeonTruncateMinMax.ssat 16
                        (NeonTruncateMinMax.signed 32 x)) v).
Proof.
  split; intros v Hv.
  - rewrite t0_by_lane by apply Hv.
    exact (@lanes_of_vector NeonTruncateMinMax.lane_t0
             (fun x => NeonTruncateMinMax.ssat 8
                         (NeonTruncateMinMax.signed 16 x))
             (NeonTruncateMinMax.signed 8) 8 16 8 v lane_t0_saturates Hv).
  - rewrite t1_by_lane by apply Hv.
    exact (@lanes_of_vector NeonTruncateMinMax.lane_t1
             (fun x => NeonTruncateMinMax.ssat 16
                         (NeonTruncateMinMax.signed 32 x))
             (NeonTruncateMinMax.signed 16) 4 32 16 v lane_t1_saturates Hv).
Qed.

Lemma neon_signed_truncate_min_max_witness :
  NeonTruncateMinMax.isVector 8 16
    [0; 127; 128; 32767; 32768; 65407; 65408; 65535] /\
  map (NeonTruncateMinMax.signed 8)
      (NeonTruncateMinMax.t0 [0; 127; 128; 32767; 32768; 65407; 65408; 65535])
  = [0; 127; 127; 127; -128; -128; -128; -1].
Proof.
  assert (Hv : NeonTruncateMinMax.isVector 8 16
                 [0; 127; 128; 32767; 32768; 65407; 65408; 65535]).
  { split; [reflexivity|].
    repeat (apply Forall_cons; [split; [discriminate|reflexivity]|]).
    apply Forall_nil. }
  split; [exact Hv|].
  destruct (proj1 neon_signed_truncate_min_max _ Hv) as [_ Heq].
  rewrite Heq. reflexivity.
Defined.

(** X2.  In [t2] and in [t3] the truncation loses nothing: the lanes of the
    result are the lanes of the input saturated to the unsigned range of
    the narrow type, i.e. at most 255 for [t2] and at most 65535 for [t3]
    -- the lane-wise value of an unsigned saturating narrowing move. *)
Theorem neon_unsigned_truncate_min :
  (forall v,
      NeonTruncateMinMax.isVector 8 16 v ->
      NeonTruncateMinMax.isVector 8 8 (NeonTruncateMinMax.t2 v) /\
      NeonTruncateMinMax.t2 v = map (NeonTruncateMinMax.usat 8) v) /\
  (forall v,
      NeonTruncateMinMax.isVector 4 32 v ->
      NeonTruncateMinMax.isVector 4 16 (NeonTruncateMinMax.t3 v) /\
      NeonTruncateMinMax.t3 v = map (NeonTruncateMinMax.usat 16) v).
Proof.
  split; intros v Hv.
  - rewrite t2_by_lane by apply Hv.
    destruct (@lanes_of_vector NeonTruncateMinMax.lane_t2
                (NeonTruncateMinMax.usat 8) (fun x => x) 8 16 8 v
                lane_t2_saturates Hv) as [Hvec Heq].
    split; [exact Hvec|]. now rewrite map_id in Heq.
  - rewrite t3_by_lane by apply Hv.
    destruct (@lanes_of_vector NeonTruncateMinMax.lane_t3
                (NeonTruncateMinMax.usat 16) (fun x => x) 4 32 16 v
                lane_t3_saturates Hv) as [Hvec Heq].
    split; [exact Hvec|]. now rewrite map_id in Heq.
Qed.

Lemma neon_unsigned_truncate_min_witness :
  NeonTruncateMinMax.isVector 4 32 [0; 65535; 65536; 4294967295] /\
  NeonTruncateMinMax.t3 [0; 65535; 65536; 4294967295]
  = [0; 65535; 65535; 65535].
Proof.
  assert (Hv : NeonTruncateMinMax.isVector 4 32
                 [0; 65535; 65536; 4294967295]).
  { split; [reflexivity|].
    repeat (apply Forall_cons; [split; [discriminate|reflexivity]|]).
    apply Forall_nil. }
  split; [exact Hv|].
  destruct (proj2 neon_unsigned_truncate_min _ Hv) as [_ Heq].
  rewrite Heq. reflexivity.
Defined.

(** *** Dimension vectors inside the iteration space *)

Lemma nth_dimExprs (n : nat) (start : Z) (j : nat) (d : AffineExpr) :
  (j < n)%nat -> nth j (dimExprs n start) d = Dim (start + Z.of_nat j).
Proof.
  revert start j. induction n as [|n IH]; intros start j Hj; [lia|].
  destruct j as [|j]; simpl.
  - f_equal. lia.
  - rewrite IH by lia. f_equal. lia.
Qed.

Lemma dimExprs_app (a b : nat) (start : Z) :
  dimExprs (a + b) start
  = dimExprs a start ++ dimExprs b (start + Z.of_nat a).
Proof.
  revert start. induction a as [|a IH]; intros start.
  - simpl. f_equal. lia.
  - cbn [Nat.add dimExprs app]. rewrite IH. do 3 f_equal. lia.
Qed.

Lemma dimExprs_below (n : nat) (start loops : Z) :
  0 <= start -> start + Z.of_nat n <= loops ->
  forallb (dimsBelow loops) (dimExprs n start) = true.
Proof.
  revert start. induction n as [|n IH]; intros start H0 Hle;
    [reflexivity|].
  cbn [dimExprs forallb dimsBelow].
  rewrite IH by lia.
  destruct (Z.leb_spec 0 start); [|lia].
  destruct (Z.ltb_spec start loops); [reflexivity|lia].
Qed.

Lemma weightedFrom_below {Op : Type} `{IteratorTypes Op}
      `{PoolingAttributes Op} (op : Op) (loops : Z)
      (os ws r : list AffineExpr) (i : nat) :
  forallb (dimsBelow loops) os = true ->
  forallb (dimsBelow loops) ws = true ->
  weightedFrom op i os ws = Ok r ->
  forallb (dimsBelow loops) r = true.
Proof.
  revert ws r i. induction os as [|o os IH]; intros ws r i Hos Hws Hr;
    simpl in Hr.
  - inversion Hr. reflexivity.
  - destruct ws as [|w ws]; [discriminate|].
    destruct (getStride op (Z.of_nat i)) as [s|]; [|discriminate].
    destruct (getDilation op (Z.of_nat i)) as [d|]; [|discriminate].
    destruct (getLowPad op (Z.of_nat i)) as [p|]; [|discriminate].
    cbn [bind] in Hr.
    destruct (weightedFrom op (S i) os ws) as [rest|] eqn:Hrest;
      [|discriminate].
    cbn [bind] in Hr. inversion Hr; subst r; clear Hr.
    cbn [forallb] in Hos, Hws.
    apply andb_prop in Hos as [Ho Hos]. apply andb_prop in Hws as [Hw Hws].
    cbn [forallb weightedExpr dimsBelow]. rewrite Ho, Hw.
    rewrite (IH ws rest (S i) Hos Hws Hrest). reflexivity.
Qed.

(** X3.  Each named operation returns one indexing map per input and output
    view: whenever indexing_maps of a copy, a fill, a convolution or a
    pooling returns, the number of maps is the number of inputs() plus the
    number of outputs() (2, 1, 3 and 3). *)
Theorem one_indexing_map_per_view :
  (forall (op : CopyOp.t) ms,
      CopyOp.indexing_maps op = Ok ms ->
      length ms = (length (inputs op) + length (outputs op))%nat) /\
  (forall (op : FillOp.t) ms,
      FillOp.indexing_maps op = Ok ms ->
      length ms = (length (inputs op) + length (outputs op))%nat) /\
  (forall (op : ConvOp.t) ms,
      ConvOp.indexing_maps op = Ok ms ->
      length ms = (length (inputs op) + length (outputs op))%nat) /\
  (forall (op : SingleInputPoolingBase_Op.t) ms,
      SingleInputPoolingBase_Op.indexing_maps op = Ok ms ->
      length ms = (length (inputs op) + length (outputs op))%nat).
Proof.
  split; [|split; [|split]].
  - intros op ms Hms. unfold CopyOp.indexing_maps in Hms.
    inversion Hms. reflexivity.
  - intros op ms Hms. unfold FillOp.indexing_maps in Hms.
    destruct (getNumParallelLoops op) as [n|]; [|discriminate].
    cbn [bind] in Hms. inversion Hms. reflexivity.
  - intros op ms Hms. unfold ConvOp.indexing_maps in Hms.
    destruct (getNumWindowLoops op) as [n|]; [|discriminate].
    cbn [bind] in Hms. destruct (n >? 0); [|discriminate].
    unfold makeAffineDimExprs in Hms. cbv beta iota zeta in Hms.
    destruct (weightedPoolingInputIndex op _ _) as [ws|]; [|discriminate].
    cbn [bind] in Hms. inversion Hms. reflexivity.
  - intros op ms Hms. unfold SingleInputPoolingBase_Op.indexing_maps in Hms.
    destruct (getNumParallelLoops op) as [n|]; [|discriminate].
    destruct (getNumWindowLoops op) as [k|]; [|discriminate].
    cbn [bind] in Hms. destruct (k >? 0); [|discriminate].
    unfold makeAffineDimExprs in Hms. cbv beta iota zeta in Hms.
    destruct (weightedPoolingInputIndex op _ _) as [ws|]; [|discriminate].
    cbn [bind] in Hms. inversion Hms. reflexivity.
Qed.

Lemma one_indexing_map_per_view_witness :
  exists ms,
    ConvOp.indexing_maps conv2d = Ok ms /\
    length ms = (length (inputs conv2d) + length (outputs conv2d))%nat /\
    length ms = 3%nat.
Proof.
  eexists.
  assert (Hms : ConvOp.indexing_maps conv2d = Ok _)
    by (vm_compute; reflexivity).
  split; [exact Hms|].
  split; [|reflexivity].
  exact (proj1 (proj2 (proj2 one_indexing_map_per_view)) conv2d _ Hms).
Defined.

(** X4.  Every indexing map a convolution returns is a map over all its
    loops that indexes an operand of the output's rank: it has no symbols,
    its domain rank is the number of loops, 2 * rank - 1, it has exactly
    rank results, and all its dimension references, those inside the
    weighted input expressions included, lie inside the iteration space. *)
Theorem ConvOp_maps_index_operands (op : ConvOp.t) :
  2 * getRank (ConvOp.output op) <= UNSIGNED_MAX ->
  forall ms,
    ConvOp.indexing_maps op = Ok ms ->
    Forall (indexesOperand (2 * getRank (ConvOp.output op) - 1)
                           (getRank (ConvOp.output op))) ms.
Proof.
  intros Hb ms Hms.
  destruct (Z_le_gt_dec (getRank (ConvOp.output op)) 2) as [Hle|Hgt].
  { rewrite ConvOp_indexing_maps_rank_limit in Hms by assumption.
    discriminate. }
  rewrite ConvOp_indexing_maps_unfold in Hms by lia.
  set (n := getRank (ConvOp.output op) - 2) in *.
  assert (Hn : 0 < n) by (subst n; lia).
  replace (2 * getRank (ConvOp.output op) - 1) with (2 * n + 3) in *
    by (subst n; lia).
  replace (getRank (ConvOp.output op)) with (n + 2) in * by (subst n; lia).
  destruct (weightedPoolingInputIndex op (convImage n) (convWindow n))
    as [ws|e] eqn:Hws; [|discriminate].
  cbn [bind] in Hms. injection Hms as Hms. subst ms.
  unfold weightedPoolingInputIndex in Hws.
  assert (Himg : forallb (dimsBelow (2 * n + 3)) (convImage n) = true)
    by (apply dimExprs_below; lia).
  assert (Hwin : forallb (dimsBelow (2 * n + 3)) (convWindow n) = true)
    by (apply dimExprs_below; lia).
  assert (Hwsb : forallb (dimsBelow (2 * n + 3)) ws = true)
    by (exact (weightedFrom_below op _ _ _ _ Himg Hwin Hws)).
  apply weightedFrom_ok in Hws as [Hlen _].
  unfold convImage in Hlen. rewrite length_dimExprs in Hlen.
  assert (Hin : forallb (dimsBelow (2 * n + 3)) (convInFeature n) = true)
    by (apply dimExprs_below; lia).
  assert (Hout : forallb (dimsBelow (2 * n + 3)) (convOutFeature n) = true)
    by (apply dimExprs_below; lia).
  assert (Hbat : forallb (dimsBelow (2 * n + 3)) convBatch = true)
    by (apply dimExprs_below; lia).
  assert (H1 : Z.of_nat (length (convWindow n ++ convInFeature n
                                  ++ convOutFeature n)) = n + 2 /\
               forallb (dimsBelow (2 * n + 3))
                 (convWindow n ++ convInFeature n ++ convOutFeature n)
               = true).
  { rewrite !length_app, !forallb_app, Hwin, Hin, Hout.
    unfold convWindow, convInFeature, convOutFeature.
    rewrite !length_dimExprs. split; [lia|reflexivity]. }
  assert (H2 : Z.of_nat (length (convBatch ++ ws ++ convInFeature n))
               = n + 2 /\
               forallb (dimsBelow (2 * n + 3))
                 (convBatch ++ ws ++ convInFeature n) = true).
  { rewrite !length_app, !forallb_app, Hbat, Hwsb, Hin, Hlen.
    unfold convBatch, convInFeature.
    rewrite !length_dimExprs. split; [lia|reflexivity]. }
  assert (H3 : Z.of_nat (length (convBatch ++ convImage n
                                  ++ convOutFeature n)) = n + 2 /\
               forallb (dimsBelow (2 * n + 3))
                 (convBatch ++ convImage n ++ convOutFeature n) = true).
  { rewrite !length_app, !forallb_app, Hbat, Himg, Hout.
    unfold convBatch, convImage, convOutFeature.
    rewrite !length_dimExprs. split; [lia|reflexivity]. }
  apply Forall_cons; [exact (conj eq_refl (conj eq_refl H1))|].
  apply Forall_cons; [exact (conj eq_refl (conj eq_refl H2))|].
  apply Forall_cons; [exact (conj eq_refl (conj eq_refl H3))|].
  apply Forall_nil.
Qed.

Lemma ConvOp_maps_index_operands_witness :
  2 * getRank (ConvOp.output conv2d) <= UNSIGNED_MAX /\
  exists ms,
    ConvOp.indexing_maps conv2d = Ok ms /\
    Forall (indexesOperand 7 4) ms.
Proof.
  assert (Hb : 2 * getRank (ConvOp.output conv2d) <= UNSIGNED_MAX)
    by (vm_compute; discriminate).
  split; [exact Hb|].
  eexists.
  assert (Hms : ConvOp.indexing_maps conv2d = Ok _)
    by (vm_compute; reflexivity).
  split; [exact Hms|].
  exact (ConvOp_maps_index_operands conv2d Hb Hms).
Defined.

(** X5.  Every indexing map a single-input pooling returns is a map over all
    its loops that indexes an operand of the output's rank: no symbols,
    domain rank 2 * rank, exactly rank results, every dimension reference
    inside the iteration space. *)
Theorem Pooling_maps_index_operands (op : SingleInputPoolingBase_Op.t) :
  2 * getRank (SingleInputPoolingBase_Op.output op) < UNSIGNED_MAX ->
  forall ms,
    SingleInputPoolingBase_Op.indexing_maps op = Ok ms ->
    Forall (indexesOperand
              (2 * getRank (SingleInputPoolingBase_Op.output op))
              (getRank (SingleInputPoolingBase_Op.output op))) ms.
Proof.
  intros Hb ms Hms.
  pose proof (getRank_nonneg (SingleInputPoolingBase_Op.output op)) as H0.
  set (n := getRank (SingleInputPoolingBase_Op.output op)) in *.
  destruct (Z_le_gt_dec n 0) as [Hle|Hpos].
  { unfold SingleInputPoolingBase_Op.indexing_maps in Hms.
    rewrite Pooling_getNumParallelLoops, Pooling_getNumWindowLoops in Hms
      by (fold n; lia).
    cbn [bind] in Hms. fold n in Hms.
    destruct (Z.gtb_spec n 0) as [Hgt|_]; [lia|discriminate]. }
  rewrite Pooling_indexing_maps_unfold in Hms by (fold n; lia).
  fold n in Hms.
  destruct (weightedPoolingInputIndex op (poolingOutput n) (poolingWindow n))
    as [ws|e] eqn:Hws; [|discriminate].
  cbn [bind] in Hms. injection Hms as Hms. subst ms.
  unfold weightedPoolingInputIndex in Hws.
  assert (Hout : forallb (dimsBelow (2 * n)) (poolingOutput n) = true)
    by (apply dimExprs_below; lia).
  assert (Hwin : forallb (dimsBelow (2 * n)) (poolingWindow n) = true)
    by (apply dimExprs_below; lia).
  assert (Hwsb : forallb (dimsBelow (2 * n)) ws = true)
    by (exact (weightedFrom_below op _ _ _ _ Hout Hwin Hws)).
  apply weightedFrom_ok in Hws as [Hlen _].
  unfold poolingOutput in Hlen. rewrite length_dimExprs in Hlen.
  assert (H1 : Z.of_nat (length ws) = n) by (rewrite Hlen; lia).
  assert (H2 : Z.of_nat (length (poolingWindow n)) = n)
    by (unfold poolingWindow; rewrite length_dimExprs; lia).
  assert (H3 : Z.of_nat (length (poolingOutput n)) = n)
    by (unfold poolingOutput; rewrite length_dimExprs; lia).
  apply Forall_cons; [exact (conj eq_refl (conj eq_refl (conj H1 Hwsb)))|].
  apply Forall_cons; [exact (conj eq_refl (conj eq_refl (conj H2 Hwin)))|].
  apply Forall_cons; [exact (conj eq_refl (conj eq_refl (conj H3 Hout)))|].
  apply Forall_nil.
Qed.

Lemma Pooling_maps_index_operands_witness :
  2 * getRank (SingleInputPoolingBase_Op.output poolingMax4x4)
  < UNSIGNED_MAX /\
  exists ms,
    SingleInputPoolingBase_Op.indexing_maps poolingMax4x4 = Ok ms /\
    Forall (indexesOperand 4 2) ms.
Proof.
  assert (Hb : 2 * getRank (SingleInputPoolingBase_Op.output poolingMax4x4)
               < UNSIGNED_MAX) by reflexivity.
  split; [exact Hb|].
  eexists.
  assert (Hms : SingleInputPoolingBase_Op.indexing_maps poolingMax4x4
                = Ok _) by (vm_compute; reflexivity).
  split; [exact Hms|].
  exact (Pooling_maps_index_operands poolingMax4x4 Hb Hms).
Defined.

(** X6.  The parallel dimensions of a convolution are exactly the dimensions
    indexing its output: the output map, the last of the three, selects the
    first rank dimensions of the iteration space in order, that is, it has
    the results of the identity map of the output's rank. *)
Theorem ConvOp_output_map_selects_parallel_dims (op : ConvOp.t) :
  2 * getRank (ConvOp.output op) <= UNSIGNED_MAX ->
  forall ms,
    ConvOp.indexing_maps op = Ok ms ->
    exists f inp o,
      ms = [f; inp; o] /\
      results o = results (identity (getRank (ConvOp.output op))) /\
      getNumParallelLoops op = Ok (Z.of_nat (length (results o))).
Proof.
  intros Hb ms Hms.
  destruct (Z_le_gt_dec (getRank (ConvOp.output op)) 2) as [Hle|Hgt].
  { rewrite ConvOp_indexing_maps_rank_limit in Hms by assumption.
    discriminate. }
  assert (Hr : 2 < getRank (ConvOp.output op) < UNSIGNED_MAX) by lia.
  rewrite ConvOp_indexing_maps_unfold in Hms by lia.
  destruct (weightedPoolingInputIndex op _ _) as [ws|e]; [|discriminate].
  cbn [bind] in Hms. injection Hms as Hms. subst ms.
  eexists _, _, _. split; [reflexivity|].
  assert (Hres : convBatch
                 ++ convImage (getRank (ConvOp.output op) - 2)
                 ++ convOutFeature (getRank (ConvOp.output op) - 2)
                 = dimExprs (Z.to_nat (getRank (ConvOp.output op))) 0).
  { unfold convBatch, convImage, convOutFeature.
    replace (Z.to_nat (getRank (ConvOp.output op)))
      with (1 + (Z.to_nat (getRank (ConvOp.output op) - 2) + 1))%nat by lia.
    rewrite !dimExprs_app. do 3 f_equal. lia. }
  match goal with
  | |- results ?o = _ /\ _ =>
      assert (Ho : results o
                   = dimExprs (Z.to_nat (getRank (ConvOp.output op))) 0)
        by exact Hres
  end.
  split; [exact Ho|].
  rewrite Ho, length_dimExprs.
  unfold getNumParallelLoops, iterator_types, ConvOp.iterators.
  rewrite ConvOp_iterator_types_ok by assumption. cbn [bind].
  unfold getParallelIteratorTypeName.
  rewrite !getNumIterators_app, getNumIterators_same by lia.
  rewrite !getNumIterators_other by reflexivity. f_equal. lia.
Qed.

Lemma ConvOp_output_map_selects_parallel_dims_witness :
  2 * getRank (ConvOp.output conv2d) <= UNSIGNED_MAX /\
  exists ms f inp o,
    ConvOp.indexing_maps conv2d = Ok ms /\
    ms = [f; inp; o] /\
    results o = [Dim 0; Dim 1; Dim 2; Dim 3].
Proof.
  assert (Hb : 2 * getRank (ConvOp.output conv2d) <= UNSIGNED_MAX)
    by (vm_compute; discriminate).
  split; [exact Hb|].
  assert (Hms : ConvOp.indexing_maps conv2d = Ok _)
    by (vm_compute; reflexivity).
  destruct (ConvOp_output_map_selects_parallel_dims conv2d Hb Hms)
    as (f & inp & o & Heq & Hres & _).
  eexists _, f, inp, o. split; [exact Hms|]. split; [exact Heq|].
  rewrite Hres. reflexivity.
Defined.

(** X7.  The loops of a convolution of output rank above 2: as many parallel
    loops as output dimensions, one reduction loop, and one window loop per
    spatial dimension (getNumWindowLoops is getNumSpatialDimensions); the
    three counts add up to the number of loops. *)
Theorem ConvOp_loop_counts (op : ConvOp.t) :
  2 < getRank (ConvOp.output op) < UNSIGNED_MAX ->
  getNumParallelLoops op = Ok (getRank (ConvOp.output op)) /\
  getNumReductionLoops op = Ok (ConvOp.getNumInputFeatureDimensions op) /\
  getNumWindowLoops op = Ok (ConvOp.getNumSpatialDimensions op) /\
  getNumLoops op
  = Ok (getRank (ConvOp.output op)
        + ConvOp.getNumInputFeatureDimensions op
        + ConvOp.getNumSpatialDimensions op).
Proof.
  intros Hr.
  assert (Hsp : ConvOp.getNumSpatialDimensions op
                = getRank (ConvOp.output op) - 2).
  { unfold ConvOp.getNumSpatialDimensions.
    rewrite ConvOp_output_type.
    unfold ConvOp.getNumBatchDimensions,
      ConvOp.getNumOutputFeatureDimensions.
    rewrite to_unsigned_small by lia. lia. }
  rewrite Hsp, ConvOp_getNumWindowLoops, ConvOp_getNumLoops by assumption.
  unfold getNumParallelLoops, getNumReductionLoops, iterator_types,
    ConvOp.iterators.
  rewrite ConvOp_iterator_types_ok by assumption. cbn [bind].
  unfold getParallelIteratorTypeName, getReductionIteratorTypeName,
    ConvOp.getNumInputFeatureDimensions.
  rewrite !getNumIterators_app.
  rewrite !getNumIterators_same by lia.
  rewrite !getNumIterators_other by reflexivity.
  repeat split; f_equal; lia.
Qed.

Lemma ConvOp_loop_counts_witness :
  2 < getRank (ConvOp.output conv2d) < UNSIGNED_MAX /\
  getNumParallelLoops conv2d = Ok 4 /\
  getNumReductionLoops conv2d = Ok 1 /\
  getNumWindowLoops conv2d = Ok 2 /\
  getNumLoops conv2d = Ok 7.
Proof.
  assert (Hr : 2 < getRank (ConvOp.output conv2d) < UNSIGNED_MAX)
    by (split; reflexivity).
  split; [exact Hr|].
  exact (ConvOp_loop_counts conv2d Hr).
Defined.

(** X8.  Without strides, dilations and padding attributes the maps are
    always produced and the window slides by one: a convolution of output
    rank above 2 reads its input, along spatial dimension [i], at
    x[i] + z[i], the sum of the image coordinate and the window coordinate;
    a pooling with at least one output dimension does the same with its
    output and window coordinates. *)
Theorem default_attributes_unit_window :
  (forall op : ConvOp.t,
      ConvOp.strides op = None ->
      ConvOp.dilations op = None ->
      ConvOp.padding op = None ->
      2 < getRank (ConvOp.output op) ->
      2 * getRank (ConvOp.output op) <= UNSIGNED_MAX ->
      exists f inp o,
        ConvOp.indexing_maps op = Ok [f; inp; o] /\
        forall (i : nat) (point : Z -> Z),
          Z.of_nat i < getRank (ConvOp.output op) - 2 ->
          eval point (nth (1 + i) (results inp) anyExpr)
          = point (1 + Z.of_nat i)
            + point (getRank (ConvOp.output op) + 1 + Z.of_nat i)) /\
  (forall op : SingleInputPoolingBase_Op.t,
      SingleInputPoolingBase_Op.strides op = None ->
      SingleInputPoolingBase_Op.dilations op = None ->
      SingleInputPoolingBase_Op.padding op = None ->
      0 < getRank (SingleInputPoolingBase_Op.output op) ->
      2 * getRank (SingleInputPoolingBase_Op.output op) < UNSIGNED_MAX ->
      exists inp w o,
        SingleInputPoolingBase_Op.indexing_maps op = Ok [inp; w; o] /\
        forall (i : nat) (point : Z -> Z),
          Z.of_nat i < getRank (SingleInputPoolingBase_Op.output op) ->
          eval point (nth i (results inp) anyExpr)
          = point (Z.of_nat i)
            + point (getRank (SingleInputPoolingBase_Op.output op)
                     + Z.of_nat i)).
Proof.
  split.
  - intros op Hstr Hdil Hpad Hgt Hb.
    assert (Hr : 2 < getRank (ConvOp.output op) < UNSIGNED_MAX) by lia.
    pose proof (ConvOp_getNumWindowLoops op Hr) as HnWin.
    assert (Hs : strides op = None) by exact Hstr.
    assert (Hd : dilations op = None) by exact Hdil.
    assert (Hp : padding op = None) by exact Hpad.
    rewrite ConvOp_indexing_maps_unfold by lia.
    set (n := getRank (ConvOp.output op) - 2) in *.
    destruct (@weightedFrom_returns _ _ _ op n HnWin
                (convImage n) (convWindow n) 0%nat) as [ws Hws].
    + unfold convImage. rewrite length_dimExprs. lia.
    + unfold convImage, convWindow. rewrite !length_dimExprs. lia.
    + unfold attributesCover. now rewrite Hs, Hd, Hp.
    + unfold weightedPoolingInputIndex. rewrite Hws. cbn [bind].
      eexists _, _, _. split; [reflexivity|].
      intros i point Hi.
      apply weightedFrom_ok in Hws as [Hlen Hnth].
      unfold convImage in Hlen. rewrite length_dimExprs in Hlen.
      destruct (Hnth i) as (s & d & p & Hgs & Hgd & Hgp & Hev).
      { unfold convImage. rewrite length_dimExprs. lia. }
      cbn [Nat.add] in Hgs, Hgd, Hgp.
      rewrite (getStride_in_range op HnWin) in Hgs by lia.
      rewrite (getDilation_in_range op HnWin) in Hgd by lia.
      rewrite (getLowPad_in_range op HnWin) in Hgp by lia.
      rewrite Hs in Hgs. rewrite Hd in Hgd. rewrite Hp in Hgp.
      inversion Hgs; subst s. inversion Hgd; subst d.
      inversion Hgp; subst p.
      cbv [results]. change convBatch with [Dim 0].
      cbn [app Nat.add nth]. rewrite app_nth1 by lia.
      rewrite Hev. unfold convImage, convWindow.
      rewrite !nth_dimExprs by lia. cbn [eval].
      replace (n + 3 + Z.of_nat i)
        with (getRank (ConvOp.output op) + 1 + Z.of_nat i)
        by (subst n; lia).
      lia.
  - intros op Hstr Hdil Hpad Hpos Hb.
    assert (Hr : getRank (SingleInputPoolingBase_Op.output op)
                 < UNSIGNED_MAX) by lia.
    pose proof (Pooling_getNumWindowLoops op Hr) as HnWin.
    assert (Hs : strides op = None) by exact Hstr.
    assert (Hd : dilations op = None) by exact Hdil.
    assert (Hp : padding op = None) by exact Hpad.
    rewrite Pooling_indexing_maps_unfold by lia.
    set (n := getRank (SingleInputPoolingBase_Op.output op)) in *.
    destruct (@weightedFrom_returns _ _ _ op n HnWin
                (poolingOutput n) (poolingWindow n) 0%nat) as [ws Hws].
    + unfold poolingOutput. rewrite length_dimExprs. lia.
    + unfold poolingOutput, poolingWindow. rewrite !length_dimExprs. lia.
    + unfold attributesCover. now rewrite Hs, Hd, Hp.
    + unfold weightedPoolingInputIndex. rewrite Hws. cbn [bind].
      eexists _, _, _. split; [reflexivity|].
      intros i point Hi.
      apply weightedFrom_ok in Hws as [Hlen Hnth].
      destruct (Hnth i) as (s & d & p & Hgs & Hgd & Hgp & Hev).
      { unfold poolingOutput. rewrite length_dimExprs. lia. }
      cbn [Nat.add] in Hgs, Hgd, Hgp.
      rewrite (getStride_in_range op HnWin) in Hgs by lia.
      rewrite (getDilation_in_range op HnWin) in Hgd by lia.
      rewrite (getLowPad_in_range op HnWin) in Hgp by lia.
      rewrite Hs in Hgs. rewrite Hd in Hgd. rewrite Hp in Hgp.
      inversion Hgs; subst s. inversion Hgd; subst d.
      inversion Hgp; subst p.
      cbv [results]. rewrite Hev. unfold poolingOutput, poolingWindow.
      rewrite !nth_dimExprs by lia. cbn [eval].
      replace (0 + Z.of_nat i) with (Z.of_nat i) by lia. lia.
Qed.

Lemma default_attributes_unit_window_witness :
  (ConvOp.strides conv2dPlain = None /\
   ConvOp.dilations conv2dPlain = None /\
   ConvOp.padding conv2dPlain = None /\
   2 < getRank (ConvOp.output conv2dPlain) /\
   2 * getRank (ConvOp.output conv2dPlain) <= UNSIGNED_MAX /\
   exists f inp o,
     ConvOp.indexing_maps conv2dPlain = Ok [f; inp; o] /\
     forall point, eval point (nth 2 (results inp) anyExpr)
                   = point 2 + point 6) /\
  (0 < getRank (SingleInputPoolingBase_Op.output poolingPlain) /\
   2 * getRank (SingleInputPoolingBase_Op.output poolingPlain)
   < UNSIGNED_MAX /\
   exists inp w o,
     SingleInputPoolingBase_Op.indexing_maps poolingPlain
     = Ok [inp; w; o] /\
     forall point, eval point (nth 1 (results inp) anyExpr)
                   = point 1 + point 3).
Proof.
  destruct default_attributes_unit_window as [Hconv Hpool].
  split.
  - assert (Hr : 2 < getRank (ConvOp.output conv2dPlain)) by reflexivity.
    assert (Hb : 2 * getRank (ConvOp.output conv2dPlain) <= UNSIGNED_MAX)
      by (vm_compute; discriminate).
    repeat (split; [first [reflexivity | exact Hr | exact Hb]|]).
    destruct (Hconv conv2dPlain eq_refl eq_refl eq_refl Hr Hb)
      as (f & inp & o & Hms & Hidx).
    exists f, inp, o. split; [exact Hms|].
    intros point. exact (Hidx 1%nat point eq_refl).
  - assert (Hp : 0 < getRank (SingleInputPoolingBase_Op.output
                                poolingPlain)) by reflexivity.
    assert (Hb : 2 * getRank (SingleInputPoolingBase_Op.output
                                poolingPlain) < UNSIGNED_MAX)
      by reflexivity.
    split; [exact Hp|]. split; [exact Hb|].
    destruct (Hpool poolingPlain eq_refl eq_refl eq_refl Hp Hb)
      as (inp & w & o & Hms & Hidx).
    exists inp, w, o. split; [exact Hms|].
    intros point. exact (Hidx 1%nat point eq_refl).
Defined.

(** X9.  The four window accessors of a pooling-like operation never answer
    for an index outside the window loops, whether or not the attribute is
    there: getStride, getDilation, getLowPad and getHighPad stop at their
    assertion for every [i] at or above getNumWindowLoops ([i] being an
    unsigned index, 0 <= i).  Inside the
    window loops each returns exactly the default (1, 1, 0, 0) when its
    attribute is absent and otherwise entry [i] of strides or dilations,
    or entry [(i, 0)], [(i, 1)] of padding, and nothing when the attribute
    has no such entry. *)
Theorem window_accessors_characterised
        {Op : Type} `{IteratorTypes Op} `{PoolingAttributes Op}
        (op : Op) (nWin i v : Z) :
  getNumWindowLoops op = Ok nWin ->
  0 <= i ->
  (nWin <= i ->
   getStride op i = Err (AssertionFailed WindowLoopIndex) /\
   getDilation op i = Err (AssertionFailed WindowLoopIndex) /\
   getLowPad op i = Err (AssertionFailed WindowLoopIndex) /\
   getHighPad op i = Err (AssertionFailed WindowLoopIndex)) /\
  (getStride op i = Ok v <->
   i < nWin /\
   match strides op with
   | None => v = 1
   | Some a => nth_error a (Z.to_nat i) = Some v
   end) /\
  (getDilation op i = Ok v <->
   i < nWin /\
   match dilations op with
   | None => v = 1
   | Some a => nth_error a (Z.to_nat i) = Some v
   end) /\
  (getLowPad op i = Ok v <->
   i < nWin /\
   match padding op with
   | None => v = 0
   | Some rows =>
       exists row, nth_error rows (Z.to_nat i) = Some row /\
                   nth_error row 0 = Some v
   end) /\
  (getHighPad op i = Ok v <->
   i < nWin /\
   match padding op with
   | None => v = 0
   | Some rows =>
       exists row, nth_error rows (Z.to_nat i) = Some row /\
                   nth_error row 1 = Some v
   end).
Proof.
  intros Hn Hi0.
  assert (Harr : forall (a : list Z) k,
             getValue1 a k = Ok v <-> nth_error a k = Some v).
  { intros a k. unfold getValue1.
    destruct (nth_error a k) as [x|]; split; intros Hx;
      inversion Hx; reflexivity. }
  assert (Hel : forall (rows : list (list Z)) k j,
             getValue2 rows k j = Ok v <->
             exists row, nth_error rows k = Some row /\
                         nth_error row j = Some v).
  { intros rows k j. unfold getValue2.
    destruct (nth_error rows k) as [row|].
    - destruct (nth_error row j) as [x|] eqn:Hx; split.
      + intros Hv. inversion Hv; subst. now exists row.
      + intros (row' & Hrow & Hv). inversion Hrow; subst row'.
        rewrite Hx in Hv. now inversion Hv.
      + discriminate.
      + intros (row' & Hrow & Hv). inversion Hrow; subst row'.
        rewrite Hx in Hv. discriminate.
    - split; [discriminate|]. intros (row & Hrow & _). discriminate. }
  unfold getStride, getDilation, getLowPad, getHighPad.
  rewrite Hn. cbn [bind].
  destruct (Z.ltb_spec i nWin) as [Hlt|Hge].
  - split; [intros Hle; lia|].
    split; [|split; [|split]].
    + destruct (strides op) as [a|].
      * rewrite Harr. tauto.
      * split; [intros Hv; inversion Hv; tauto|].
        intros [_ ->]. reflexivity.
    + destruct (dilations op) as [a|].
      * rewrite Harr. tauto.
      * split; [intros Hv; inversion Hv; tauto|].
        intros [_ ->]. reflexivity.
    + destruct (padding op) as [rows|].
      * rewrite Hel. tauto.
      * split; [intros Hv; inversion Hv; tauto|].
        intros [_ ->]. reflexivity.
    + destruct (padding op) as [rows|].
      * rewrite Hel. tauto.
      * split; [intros Hv; inversion Hv; tauto|].
        intros [_ ->]. reflexivity.
  - split; [intros _; repeat split; reflexivity|].
    repeat split; try discriminate; try lia; intros [Hlt _]; lia.
Qed.

Lemma window_accessors_characterised_witness :
  getNumWindowLoops conv2d = Ok 2 /\
  0 <= 2 /\ 0 <= 1 /\
  getStride conv2d 2 = Err (AssertionFailed WindowLoopIndex) /\
  getHighPad conv2dPlain 2 = Err (AssertionFailed WindowLoopIndex) /\
  getStride conv2d 1 = Ok 2 /\
  getLowPad conv2d 1 = Ok 0.
Proof.
  assert (Hn : getNumWindowLoops conv2d = Ok 2) by reflexivity.
  assert (Hn' : getNumWindowLoops conv2dPlain = Ok 2) by reflexivity.
  assert (H2 : 0 <= 2) by discriminate.
  assert (H1 : 0 <= 1) by discriminate.
  destruct (window_accessors_characterised conv2d 2 Hn H2)
    as (Hout & _).
  destruct (window_accessors_characterised conv2dPlain 0 Hn' H2)
    as (Hout' & _).
  destruct (window_accessors_characterised conv2d 2 Hn H1)
    as (_ & Hs & _).
  destruct (window_accessors_characterised conv2d 0 Hn H1)
    as (_ & _ & _ & Hlo & _).
  assert (Hle : 2 <= 2) by discriminate.
  split; [exact Hn|]. split; [exact H2|]. split; [exact H1|].
  split; [exact (proj1 (Hout Hle))|].
  split; [exact (proj2 (proj2 (proj2 (Hout' Hle))))|].
  split.
  - apply (proj2 Hs). split; reflexivity.
  - apply (proj2 Hlo). split; [reflexivity|].
    exists [0; 0]. split; reflexivity.
Defined.

(** X10.  A copy does not enforce that its views are compatible: without
    permutation attributes the two maps are identity(input rank) and
    identity(output rank), each indexing its own operand, while
    the loops are counted on the input alone; the output map ranges over
    the loops of the copy exactly when the two ranks agree. *)
Theorem CopyOp_ranks_not_enforced (op : CopyOp.t) :
  CopyOp.inputPermutation op = None ->
  CopyOp.outputPermutation op = None ->
  getRank (CopyOp.input op) < UNSIGNED_MAX ->
  getRank (CopyOp.output op) < UNSIGNED_MAX ->
  exists i o,
    CopyOp.indexing_maps op = Ok [i; o] /\
    i = identity (getRank (CopyOp.input op)) /\
    o = identity (getRank (CopyOp.output op)) /\
    indexesOperand (getRank (CopyOp.input op)) (getRank (CopyOp.input op)) i /\
    indexesOperand (getRank (CopyOp.output op)) (getRank (CopyOp.output op))
                   o /\
    getNumLoops op = Ok (numDims i) /\
    (getNumLoops op = Ok (numDims o) <->
     getRank (CopyOp.input op) = getRank (CopyOp.output op)).
Proof.
  intros Hi Ho Hri Hro.
  pose proof (getRank_nonneg (CopyOp.input op)) as H0i.
  pose proof (getRank_nonneg (CopyOp.output op)) as H0o.
  assert (Hid : forall r, 0 <= r -> indexesOperand r r (identity r)).
  { intros r Hr. unfold indexesOperand, identity.
    cbv [numDims numSymbols results].
    split; [reflexivity|]. split; [reflexivity|].
    rewrite length_dimExprs. split; [lia|].
    apply dimExprs_below; lia. }
  assert (Hloops : getNumLoops op = Ok (getRank (CopyOp.input op))).
  { unfold getNumLoops, iterator_types, CopyOp.iterators,
      CopyOp.iterator_types.
    change (getInputShapedType op 0) with (CopyOp.input op).
    rewrite to_unsigned_small by lia. cbn [bind].
    rewrite length_fillIterators. f_equal. lia. }
  exists (identity (getRank (CopyOp.input op))),
         (identity (getRank (CopyOp.output op))).
  split.
  { unfold CopyOp.indexing_maps. rewrite Hi, Ho.
    change (getInputShapedType op 0) with (CopyOp.input op).
    change (getOutputShapedType op 0) with (CopyOp.output op).
    rewrite !to_unsigned_small by lia. reflexivity. }
  split; [reflexivity|]. split; [reflexivity|].
  split; [now apply Hid|]. split; [now apply Hid|].
  rewrite Hloops. cbv [numDims identity].
  split; [reflexivity|].
  split; [intros Heq; now inversion Heq|intros ->; reflexivity].
Qed.

Lemma CopyOp_ranks_not_enforced_witness :
  CopyOp.inputPermutation copyMismatched = None /\
  CopyOp.outputPermutation copyMismatched = None /\
  getRank (CopyOp.input copyMismatched) < UNSIGNED_MAX /\
  getRank (CopyOp.output copyMismatched) < UNSIGNED_MAX /\
  CopyOp.indexing_maps copyMismatched
  = Ok [AffineMap_get 2 0 [Dim 0; Dim 1];
        AffineMap_get 3 0 [Dim 0; Dim 1; Dim 2]] /\
  getNumLoops copyMismatched = Ok 2.
Proof.
  assert (Hri : getRank (CopyOp.input copyMismatched) < UNSIGNED_MAX)
    by reflexivity.
  assert (Hro : getRank (CopyOp.output copyMismatched) < UNSIGNED_MAX)
    by reflexivity.
  destruct (CopyOp_ranks_not_enforced copyMismatched eq_refl eq_refl Hri Hro)
    as (i & o & Hms & Hi & Ho & _ & _ & Hloops & _).
  split; [reflexivity|]. split; [reflexivity|].
  split; [exact Hri|]. split; [exact Hro|].
  split.
  - rewrite Hms, Hi, Ho. reflexivity.
  - rewrite Hloops, Hi. reflexivity.
Defined.

(** X11.  A fill has parallel loops only, as many as its output has
    dimensions, and its single map is the identity over exactly those
    loops, indexing the output: no window and no reduction loop, and no
    map for the scalar value. *)
Theorem FillOp_loops_and_map (op : FillOp.t) :
  getRank (FillOp.output op) < UNSIGNED_MAX ->
  getNumLoops op = Ok (getRank (FillOp.output op)) /\
  getNumParallelLoops op = Ok (getRank (FillOp.output op)) /\
  getNumReductionLoops op = Ok 0 /\
  getNumWindowLoops op = Ok 0 /\
  exists m,
    FillOp.indexing_maps op = Ok [m] /\
    m = identity (getRank (FillOp.output op)) /\
    indexesOperand (getRank (FillOp.output op)) (getRank (FillOp.output op))
                   m.
Proof.
  intros Hr. pose proof (getRank_nonneg (FillOp.output op)) as H0.
  assert (Hits : FillOp.iterator_types op
                 = Ok (fillIterators (getRank (FillOp.output op)) parallel)).
  { unfold FillOp.iterator_types.
    change (getOutputShapedType op 0) with (FillOp.output op).
    now rewrite to_unsigned_small by lia. }
  assert (Hpar : getNumParallelLoops op = Ok (getRank (FillOp.output op))).
  { unfold getNumParallelLoops, iterator_types, FillOp.iterators.
    rewrite Hits. cbn [bind]. unfold getParallelIteratorTypeName.
    now rewrite getNumIterators_same by lia. }
  split.
  { unfold getNumLoops, iterator_types, FillOp.iterators.
    rewrite Hits. cbn [bind]. rewrite length_fillIterators. f_equal. lia. }
  split; [exact Hpar|].
  split.
  { unfold getNumReductionLoops, iterator_types, FillOp.iterators.
    rewrite Hits. cbn [bind]. unfold getReductionIteratorTypeName.
    now rewrite getNumIterators_other by reflexivity. }
  split.
  { unfold getNumWindowLoops, iterator_types, FillOp.iterators.
    rewrite Hits. cbn [bind]. unfold getWindowIteratorTypeName.
    now rewrite getNumIterators_other by reflexivity. }
  exists (identity (getRank (FillOp.output op))).
  split.
  { unfold FillOp.indexing_maps. rewrite Hpar. reflexivity. }
  split; [reflexivity|].
  unfold indexesOperand, identity. cbv [numDims numSymbols results].
  split; [reflexivity|]. split; [reflexivity|].
  rewrite length_dimExprs. split; [lia|].
  apply dimExprs_below; lia.
Qed.

Lemma FillOp_loops_and_map_witness :
  getRank (FillOp.output fill2d) < UNSIGNED_MAX /\
  getNumLoops fill2d = Ok 2 /\
  FillOp.indexing_maps fill2d = Ok [AffineMap_get 2 0 [Dim 0; Dim 1]].
Proof.
  assert (Hr : getRank (FillOp.output fill2d) < UNSIGNED_MAX) by reflexivity.
  destruct (FillOp_loops_and_map fill2d Hr)
    as (Hl & _ & _ & _ & m & Hms & Hm & _).
  split; [exact Hr|]. split; [exact Hl|].
  rewrite Hms, Hm. reflexivity.
Defined.

(** X12.  getNumSpatialDimensions is not guarded against ill-formed
    convolutions: on an output of rank 0 or 1 the subtraction wraps around
    and it answers 2^32 - 2 or 2^32 - 1, and on rank 2 it answers 0;
    iterator_types, which takes the same difference, stops at its rank
    assertion on all three.  From rank 2 on the answer is rank - 2. *)
Theorem ConvOp_getNumSpatialDimensions_wraps (op : ConvOp.t) :
  (getRank (ConvOp.output op) < 2 ->
   ConvOp.getNumSpatialDimensions op
   = UNSIGNED_MAX + getRank (ConvOp.output op) - 2) /\
  (2 <= getRank (ConvOp.output op) < UNSIGNED_MAX ->
   ConvOp.getNumSpatialDimensions op = getRank (ConvOp.output op) - 2) /\
  (getRank (ConvOp.output op) <= 2 ->
   ConvOp.iterator_types op = Err (AssertionFailed ConvRankLimit)).
Proof.
  pose proof (getRank_nonneg (ConvOp.output op)) as H0.
  unfold ConvOp.getNumSpatialDimensions.
  rewrite ConvOp_output_type.
  unfold ConvOp.getNumBatchDimensions, ConvOp.getNumOutputFeatureDimensions.
  split; [|split].
  - intros Hlt. unfold to_unsigned.
    symmetry. apply Z.mod_unique_pos with (q := -1);
      unfold UNSIGNED_MAX in *; lia.
  - intros Hr. rewrite to_unsigned_small by lia. lia.
  - apply ConvOp_iterator_types_rank_limit.
Qed.

Lemma ConvOp_getNumSpatialDimensions_wraps_witness :
  getRank (ConvOp.output convRank1) < 2 /\
  ConvOp.getNumSpatialDimensions convRank1 = 4294967295 /\
  ConvOp.iterator_types convRank1 = Err (AssertionFailed ConvRankLimit).
Proof.
  assert (Hlt : getRank (ConvOp.output convRank1) < 2) by reflexivity.
  assert (Hle : getRank (ConvOp.output convRank1) <= 2)
    by (vm_compute; discriminate).
  destruct (ConvOp_getNumSpatialDimensions_wraps convRank1)
    as (Hw & _ & Ha).
  split; [exact Hlt|]. split; [|exact (Ha Hle)].
  rewrite (Hw Hlt). reflexivity.
Defined.
